(** * NBA data pipeline: ingestion, validation, flattening, indicators

    A shallow embedding of the four scripts of the repository

    - [models/schema.py]             (module [Schema])
    - [scripts/validate.py]          (module [Validate])
    - [scripts/ingest.py]            (module [Ingest])
    - [scripts/compute_indicators.py] (module [Indicators])

    together with the properties of the pipeline stated in its
    specification.

    Conventions.  Python values read with [json.load] are modelled by the
    type [json]; Python's [None] and JSON's [null] are the same value
    [JNull].  JSON numbers are modelled as integers: numbers with a
    fraction or an exponent (Python floats) are outside the model.
    Python integers are unbounded, hence [Z].  Strings are Rocq strings
    (one character per byte).  Exceptions are explicit: a computation
    that may raise returns a [result].  Files outlive the process that
    writes them: a script returns the files as they are when it ends,
    also when it ends on an exception; requests and pauses are recorded
    in a trace.  The order of the keys of a dictionary is not modelled
    ([gmap] does not keep it).  The libraries the scripts call
    (pydantic, requests, pandas) are parameters: a type class or a
    function gives what the library answers, exceptions included. *)

From Stdlib Require Import Ascii ZArith QArith Lia.
From stdpp Require Import gmap strings list fin_maps sorting.

Local Open Scope Z_scope.

(* ===================================================================== *)
(** * Python values, exceptions, dictionaries                             *)
(* ===================================================================== *)

#[warnings="-register-all"] Inductive json : Type :=
  | JNull
  | JBool (b : bool)
  | JInt (n : Z)
  | JStr (s : string)
  | JArr (l : list json)
  | JObj (d : gmap string json).

(** The exceptions the scripts can raise besides pydantic's
    [ValidationError] (which [validate.py] catches and which is modelled
    as a value, see [Schema.vres]).  [RequestException] stands for the
    exceptions of [requests.get] (connection errors, timeouts). *)
Inductive exn : Type :=
  | AttributeError
  | TypeError
  | FileNotFoundError
  | HTTPError (status : Z)
  | RequestException
  | JSONDecodeError
  | OverflowError
  | ArrowTypeError.

Inductive result (A : Type) : Type :=
  | Ok (a : A)
  | Raise (e : exn).
Arguments Ok {A} a.
Arguments Raise {A} e.

(** Sequencing: the first exception raised aborts what follows.  The
    notation [x ← c; k] is stdpp's monadic bind. *)
#[global] Instance result_ret : MRet result := fun A a => Ok a.
#[global] Instance result_bind : MBind result := fun A B k x =>
  match x with
  | Ok a => k a
  | Raise e => Raise e
  end.

Module Py.

(** [bool(v)]: the truth value Python gives to a value, as used by
    [while cursor] and [if not page_items]. *)
Definition truthy (v : json) : bool :=
  match v with
  | JNull => false
  | JBool b => b
  | JInt n => negb (n =? 0)
  | JStr s => negb (String.eqb s "")
  | JArr l => match l with [] => false | _ => true end
  | JObj d => negb (bool_decide (d = ∅))
  end.

(** [d.get(k)]: the value under [k], or [None]. *)
Definition get (d : gmap string json) (k : string) : json :=
  default JNull (d !! k).

(** [d.get(k, {})]. *)
Definition get_or_empty (d : gmap string json) (k : string) : json :=
  default (JObj ∅) (d !! k).

(** [v.get(k)] on an arbitrary value: only dictionaries have a [get]
    attribute; on [None], numbers, booleans, strings and lists the
    attribute lookup raises [AttributeError]. *)
Definition attr_get (v : json) (k : string) : result json :=
  match v with
  | JObj d => Ok (get d k)
  | _ => Raise AttributeError
  end.

(** [v.get(k, default)] on an arbitrary value. *)
Definition attr_get_or (v : json) (k : string) (dflt : json) : result json :=
  match v with
  | JObj d => Ok (default dflt (d !! k))
  | _ => Raise AttributeError
  end.

(** The characters of a string, each a string of length one. *)
Fixpoint chars (s : string) : list json :=
  match s with
  | EmptyString => []
  | String a s' => JStr (String a EmptyString) :: chars s'
  end.

(** [iter(v)], as used by [list.extend(v)]: the items of a list, the
    characters of a string, the keys of a dictionary; [None], booleans
    and numbers are not iterable. *)
Definition iterate (v : json) : result (list json) :=
  match v with
  | JArr l => Ok l
  | JStr s => Ok (chars s)
  | JObj d => Ok (JStr <$> (map_to_list d).*1)
  | JNull | JBool _ | JInt _ => Raise TypeError
  end.

(** [needle in hay] on strings. *)
Fixpoint contains (needle hay : string) : bool :=
  String.prefix needle hay ||
  match hay with
  | EmptyString => false
  | String _ hay' => contains needle hay'
  end.

(** [s[:n]]. *)
Definition slice_to (n : nat) (s : string) : string := String.substring 0 n s.

(** [type(v).__name__]. *)
Definition type_name (v : json) : string :=
  match v with
  | JNull => "NoneType"
  | JBool _ => "bool"
  | JInt _ => "int"
  | JStr _ => "str"
  | JArr _ => "list"
  | JObj _ => "dict"
  end.

(** [str(n)] for a natural number. *)
Fixpoint digits_of (fuel n : nat) (acc : string) : string :=
  match fuel with
  | O => acc
  | S fuel' =>
      let acc' := String (Ascii.ascii_of_nat (48 + Nat.modulo n 10)) acc in
      if Nat.ltb n 10 then acc' else digits_of fuel' (Nat.div n 10) acc'
  end.
Definition str_of_nat (n : nat) : string := digits_of (S n) n "".

End Py.

(* ===================================================================== *)
(** * models/schema.py                                                    *)
(* ===================================================================== *)

Module Schema.

(** ** The validation library

    [schema.py] declares the two models; the checks themselves are run by
    pydantic (v2, default "lax" mode).  What pydantic does on integers,
    strings, booleans, [None] and dictionaries is modelled below.  What it
    does when it parses text (dates, datetimes, numeric strings, boolean
    words) and how it prints an offending input inside an error message
    is left as a parameter of the development: every general theorem
    holds for any such behaviour. *)

Record lib_error : Type := { err_type : string; err_msg : string }.

Class Pydantic : Type := {
  (** the parsed form of a [date] and of a [datetime] field *)
  date_t : Type;
  datetime_t : Type;
  (** validation of a [date] / [datetime] field from a Python value *)
  date_validate : json -> lib_error + date_t;
  datetime_validate : json -> lib_error + datetime_t;
  (** their ISO rendering in [model_dump_json] *)
  date_dump : date_t -> string;
  datetime_dump : datetime_t -> string;
  (** lax conversion of a string given for an [int] / a [bool] field *)
  str_as_int : string -> option Z;
  str_as_bool : string -> option bool;
  (** the (truncated) [repr] of an input shown in an error line *)
  input_repr : json -> string;
  (** the version segment of the documentation link in an error line *)
  version : string
}.

(** One line of a [ValidationError]. *)
Record line_error : Type := {
  loc : list string;
  etype : string;
  emsg : string;
  einput : json
}.

(** The outcome of validating a value: the validated value, or the
    errors to report.  Pydantic validates every field and reports all the
    errors, so results are combined applicatively. *)
Inductive vres (A : Type) : Type :=
  | VOk (a : A)
  | VErr (es : list line_error).
Arguments VOk {A} a.
Arguments VErr {A} es.

Definition vap {A B} (f : vres (A -> B)) (x : vres A) : vres B :=
  match f, x with
  | VOk f, VOk a => VOk (f a)
  | VOk _, VErr es => VErr es
  | VErr es, VOk _ => VErr es
  | VErr es1, VErr es2 => VErr (es1 ++ es2)
  end.

Arguments vap : simpl never.

Notation "f <*> x" := (vap f x) (at level 50, left associativity).

Definition int_type : lib_error :=
  {| err_type := "int_type"; err_msg := "Input should be a valid integer" |}.
Definition int_parsing : lib_error :=
  {| err_type := "int_parsing";
     err_msg := "Input should be a valid integer, unable to parse string as an integer" |}.
Definition greater_than_equal : lib_error :=
  {| err_type := "greater_than_equal";
     err_msg := "Input should be greater than or equal to 0" |}.
Definition string_type : lib_error :=
  {| err_type := "string_type"; err_msg := "Input should be a valid string" |}.
Definition bool_type : lib_error :=
  {| err_type := "bool_type"; err_msg := "Input should be a valid boolean" |}.
Definition bool_parsing : lib_error :=
  {| err_type := "bool_parsing";
     err_msg := "Input should be a valid boolean, unable to interpret input" |}.
Definition missing : lib_error :=
  {| err_type := "missing"; err_msg := "Field required" |}.
Definition model_type (cls : string) : lib_error :=
  {| err_type := "model_type";
     err_msg := "Input should be a valid dictionary or instance of " +:+ cls |}.
(** A [ValueError] raised by a validator of the model. *)
Definition value_error (text : string) : lib_error :=
  {| err_type := "value_error"; err_msg := "Value error, " +:+ text |}.

Section Models.
Context `{Pydantic}.

(** *** Field types *)

(** [int]: an integer; a boolean (a Python [int]); a numeric string. *)
Definition int_field (v : json) : lib_error + Z :=
  match v with
  | JInt n => inr n
  | JBool b => inr (if b then 1 else 0)
  | JStr s => match str_as_int s with
              | Some n => inr n
              | None => inl int_parsing
              end
  | _ => inl int_type
  end.

(** [IntGE0 = Annotated[int, Field(ge=0)]]. *)
Definition IntGE0 (v : json) : lib_error + Z :=
  match int_field v with
  | inr n => if 0 <=? n then inr n else inl greater_than_equal
  | inl e => inl e
  end.

(** [str]. *)
Definition str_field (v : json) : lib_error + string :=
  match v with
  | JStr s => inr s
  | _ => inl string_type
  end.

(** [bool]: a boolean; the integers 0 and 1; a boolean word. *)
Definition bool_field (v : json) : lib_error + bool :=
  match v with
  | JBool b => inr b
  | JInt n => if n =? 0 then inr false
              else if n =? 1 then inr true else inl bool_parsing
  | JStr s => match str_as_bool s with
              | Some b => inr b
              | None => inl bool_parsing
              end
  | _ => inl bool_type
  end.

(** [Optional[T]]: [None], or a [T]. *)
Definition Optional {A} (ty : json -> lib_error + A) (v : json)
  : lib_error + option A :=
  match v with
  | JNull => inr None
  | _ => match ty v with
         | inr a => inr (Some a)
         | inl e => inl e
         end
  end.

Definition mk_error (at_ : list string) (e : lib_error) (input : json)
  : line_error :=
  {| loc := at_; etype := err_type e; emsg := err_msg e; einput := input |}.

(** A required field [name: T] of a model validated from the dictionary
    [d], itself found at location [pre] of the input. *)
Definition required {A} (pre : list string) (d : gmap string json)
    (name : string) (ty : json -> lib_error + A) : vres A :=
  match d !! name with
  | None => VErr [mk_error (pre ++ [name]) missing (JObj d)]
  | Some v => match ty v with
              | inr a => VOk a
              | inl e => VErr [mk_error (pre ++ [name]) e v]
              end
  end.

(** A field [name: Optional[T] = None]. *)
Definition optional {A} (pre : list string) (d : gmap string json)
    (name : string) (ty : json -> lib_error + A) : vres (option A) :=
  match d !! name with
  | None => VOk None
  | Some v => match Optional ty v with
              | inr a => VOk a
              | inl e => VErr [mk_error (pre ++ [name]) e v]
              end
  end.

(** *** [class TeamInfo(BaseModel)] *)

Record TeamInfo : Type := {
  t_id : Z;
  t_conference : string;
  t_division : string;
  t_city : string;
  t_name : string;
  t_full_name : string;
  t_abbreviation : string
}.

(** The declared fields; any other key is ignored ([extra="ignore"]). *)
Definition team_fields : list string :=
  ["id"; "conference"; "division"; "city"; "name"; "full_name";
   "abbreviation"].

Definition TeamInfo_validate (pre : list string) (v : json) : vres TeamInfo :=
  match v with
  | JObj d =>
      VOk Build_TeamInfo
        <*> required pre d "id" int_field
        <*> required pre d "conference" str_field
        <*> required pre d "division" str_field
        <*> required pre d "city" str_field
        <*> required pre d "name" str_field
        <*> required pre d "full_name" str_field
        <*> required pre d "abbreviation" str_field
  | _ => VErr [mk_error pre (model_type "TeamInfo") v]
  end.

(** A field holding a nested model. *)
Definition nested (d : gmap string json) (name : string) : vres TeamInfo :=
  match d !! name with
  | None => VErr [mk_error [name] missing (JObj d)]
  | Some v => TeamInfo_validate [name] v
  end.

(** *** [class Game(BaseModel)] *)

Record Game : Type := {
  id : Z;
  date : date_t;
  season : Z;
  status : string;
  period : Z;
  time : string;
  postseason : bool;
  home_team_score : Z;
  visitor_team_score : Z;
  datetime : datetime_t;
  home_q1 : option Z;
  home_q2 : option Z;
  home_q3 : option Z;
  home_q4 : option Z;
  home_ot1 : option Z;
  home_ot2 : option Z;
  home_ot3 : option Z;
  home_timeouts_remaining : option Z;
  home_in_bonus : option bool;
  visitor_q1 : option Z;
  visitor_q2 : option Z;
  visitor_q3 : option Z;
  visitor_q4 : option Z;
  visitor_ot1 : option Z;
  visitor_ot2 : option Z;
  visitor_ot3 : option Z;
  visitor_timeouts_remaining : option Z;
  visitor_in_bonus : option bool;
  home_team : TeamInfo;
  visitor_team : TeamInfo
}.

Definition game_fields : list string :=
  ["id"; "date"; "season"; "status"; "period"; "time"; "postseason";
   "home_team_score"; "visitor_team_score"; "datetime";
   "home_q1"; "home_q2"; "home_q3"; "home_q4";
   "home_ot1"; "home_ot2"; "home_ot3";
   "home_timeouts_remaining"; "home_in_bonus";
   "visitor_q1"; "visitor_q2"; "visitor_q3"; "visitor_q4";
   "visitor_ot1"; "visitor_ot2"; "visitor_ot3";
   "visitor_timeouts_remaining"; "visitor_in_bonus";
   "home_team"; "visitor_team"].

(** The field-by-field validation of a [Game], in declaration order. *)
Definition Game_fields_validate (d : gmap string json) : vres Game :=
  VOk Build_Game
    <*> required [] d "id" int_field
    <*> required [] d "date" date_validate
    <*> required [] d "season" int_field
    <*> required [] d "status" str_field
    <*> required [] d "period" IntGE0
    <*> required [] d "time" str_field
    <*> required [] d "postseason" bool_field
    <*> required [] d "home_team_score" IntGE0
    <*> required [] d "visitor_team_score" IntGE0
    <*> required [] d "datetime" datetime_validate
    <*> optional [] d "home_q1" IntGE0
    <*> optional [] d "home_q2" IntGE0
    <*> optional [] d "home_q3" IntGE0
    <*> optional [] d "home_q4" IntGE0
    <*> optional [] d "home_ot1" IntGE0
    <*> optional [] d "home_ot2" IntGE0
    <*> optional [] d "home_ot3" IntGE0
    <*> optional [] d "home_timeouts_remaining" IntGE0
    <*> optional [] d "home_in_bonus" bool_field
    <*> optional [] d "visitor_q1" IntGE0
    <*> optional [] d "visitor_q2" IntGE0
    <*> optional [] d "visitor_q3" IntGE0
    <*> optional [] d "visitor_q4" IntGE0
    <*> optional [] d "visitor_ot1" IntGE0
    <*> optional [] d "visitor_ot2" IntGE0
    <*> optional [] d "visitor_ot3" IntGE0
    <*> optional [] d "visitor_timeouts_remaining" IntGE0
    <*> optional [] d "visitor_in_bonus" bool_field
    <*> nested d "home_team"
    <*> nested d "visitor_team".

(** [@model_validator(mode="after") def check_team_different(self)]:
    raises [ValueError] when both teams have the same id, returns [self]
    otherwise.  Pydantic reports the [ValueError] as a [value_error] line
    located at the model itself, whose input is the whole record. *)
Definition check_team_different_message : string :=
  "Home and visitor team cannot be identical".

Definition check_team_different (input : json) (self : Game) : vres Game :=
  if t_id (home_team self) =? t_id (visitor_team self)
  then VErr [mk_error [] (value_error check_team_different_message) input]
  else VOk self.

(** [Game.model_validate(v)]: the fields first, then, when they are all
    valid, the "after" validator. *)
Definition model_validate (v : json) : vres Game :=
  match v with
  | JObj d =>
      match Game_fields_validate d with
      | VOk g => check_team_different v g
      | VErr es => VErr es
      end
  | _ => VErr [mk_error [] (model_type "Game") v]
  end.

(** *** [model_dump_json] followed by [json.loads]

    The validated record is written as one line of JSON and read back by
    the clean-table step; what is read back is the dictionary of the
    declared fields (unknown keys of the input are gone), with [None] for
    an optional field that was absent. *)

Definition dump_opt_int (o : option Z) : json :=
  match o with Some n => JInt n | None => JNull end.
Definition dump_opt_bool (o : option bool) : json :=
  match o with Some b => JBool b | None => JNull end.

Definition TeamInfo_dump (t : TeamInfo) : json :=
  JObj (list_to_map
    [("id", JInt (t_id t));
     ("conference", JStr (t_conference t));
     ("division", JStr (t_division t));
     ("city", JStr (t_city t));
     ("name", JStr (t_name t));
     ("full_name", JStr (t_full_name t));
     ("abbreviation", JStr (t_abbreviation t))]).

Definition model_dump (g : Game) : gmap string json :=
  list_to_map
    [("id", JInt (id g));
     ("date", JStr (date_dump (date g)));
     ("season", JInt (season g));
     ("status", JStr (status g));
     ("period", JInt (period g));
     ("time", JStr (time g));
     ("postseason", JBool (postseason g));
     ("home_team_score", JInt (home_team_score g));
     ("visitor_team_score", JInt (visitor_team_score g));
     ("datetime", JStr (datetime_dump (datetime g)));
     ("home_q1", dump_opt_int (home_q1 g));
     ("home_q2", dump_opt_int (home_q2 g));
     ("home_q3", dump_opt_int (home_q3 g));
     ("home_q4", dump_opt_int (home_q4 g));
     ("home_ot1", dump_opt_int (home_ot1 g));
     ("home_ot2", dump_opt_int (home_ot2 g));
     ("home_ot3", dump_opt_int (home_ot3 g));
     ("home_timeouts_remaining", dump_opt_int (home_timeouts_remaining g));
     ("home_in_bonus", dump_opt_bool (home_in_bonus g));
     ("visitor_q1", dump_opt_int (visitor_q1 g));
     ("visitor_q2", dump_opt_int (visitor_q2 g));
     ("visitor_q3", dump_opt_int (visitor_q3 g));
     ("visitor_q4", dump_opt_int (visitor_q4 g));
     ("visitor_ot1", dump_opt_int (visitor_ot1 g));
     ("visitor_ot2", dump_opt_int (visitor_ot2 g));
     ("visitor_ot3", dump_opt_int (visitor_ot3 g));
     ("visitor_timeouts_remaining",
        dump_opt_int (visitor_timeouts_remaining g));
     ("visitor_in_bonus", dump_opt_bool (visitor_in_bonus g));
     ("home_team", TeamInfo_dump (home_team g));
     ("visitor_team", TeamInfo_dump (visitor_team g))].

(** *** [str(e)] for a [ValidationError]

    A title line with the number of errors, then for each error its
    location (omitted for an error on the model itself), its message with
    the details in brackets, and a documentation link. *)

Definition nl : string := String (Ascii.ascii_of_nat 10) "".

Fixpoint join_dots (l : list string) : string :=
  match l with
  | [] => ""
  | [x] => x
  | x :: l' => x +:+ "." +:+ join_dots l'
  end.

Definition error_line (e : line_error) : string :=
  match loc e with
  | [] => ""
  | l => join_dots l +:+ nl
  end
  +:+ "  " +:+ emsg e
  +:+ " [type=" +:+ etype e
  +:+ ", input_value=" +:+ input_repr (einput e)
  +:+ ", input_type=" +:+ Py.type_name (einput e) +:+ "]" +:+ nl
  +:+ "    For further information visit https://errors.pydantic.dev/"
  +:+ version +:+ "/v/" +:+ etype e.

Definition ValidationError_str (title : string) (es : list line_error)
  : string :=
  Py.str_of_nat (length es) +:+ " validation error"
  +:+ (if Nat.eqb (length es) 1 then "" else "s")
  +:+ " for " +:+ title
  +:+ String.concat "" (map (fun e => nl +:+ error_line e) es).

End Models.
End Schema.

(* ===================================================================== *)
(** * scripts/validate.py                                                 *)
(* ===================================================================== *)

Module Validate.

(** The input files, one per season: [data/raw/games_<year>.json].  A
    file is identified by the year read from its name. *)
Definition files : list Z := [2020; 2021; 2022; 2023; 2024].

(** [counters = {"invalid_schema": 0, "same_team": 0}], the module-level
    dictionary; its two keys are fixed. *)
Record Counters : Type := {
  invalid_schema : Z;
  same_team : Z
}.

Definition counters : Counters := {| invalid_schema := 0; same_team := 0 |}.

(** The dictionary returned by [flatten]: twelve fixed keys. *)
Record FlatRow : Type := {
  game_id : json;
  date : json;
  season : json;
  status : json;
  periode : json;
  postseason : json;
  home_team_id : json;
  home_team_full_name : json;
  home_team_score : json;
  visitor_team_id : json;
  visitor_team_full_name : json;
  visitor_team_score : json
}.

(** [def flatten(rec: dict) -> dict]. *)
Definition flatten (rec : gmap string json) : result FlatRow :=
  let home_team := Py.get_or_empty rec "home_team" in
  let visitor_team := Py.get_or_empty rec "visitor_team" in
  home_id ← Py.attr_get home_team "id";
  home_full_name ← Py.attr_get home_team "full_name";
  visitor_id ← Py.attr_get visitor_team "id";
  visitor_full_name ← Py.attr_get visitor_team "full_name";
  Ok {| game_id := Py.get rec "id";
        date := Py.get rec "date";
        season := Py.get rec "season";
        status := Py.get rec "status";
        periode := Py.get rec "period";
        postseason := Py.get rec "postseason";
        home_team_id := home_id;
        home_team_full_name := home_full_name;
        home_team_score := Py.get rec "home_team_score";
        visitor_team_id := visitor_id;
        visitor_team_full_name := visitor_full_name;
        visitor_team_score := Py.get rec "visitor_team_score" |}.

(** [flatten(json.loads(line))]: a line that is not a JSON object has no
    [get] attribute. *)
Definition flatten_line (line : json) : result FlatRow :=
  match line with
  | JObj rec => flatten rec
  | _ => Raise AttributeError
  end.

(** One line of an error log ([er_s]). *)
Record ErrorRecord : Type := {
  er_type : string;
  er_game_id_hint : json;
  er_season : json;
  er_reason : string
}.

(** One quality report. *)
Record QualityReport : Type := {
  total_valid : Z;
  error_counts : Counters
}.

(** The files of the [data/] directory.

    - [raw]: the input files, each a JSON array;
    - [validated]: [data/validated/games_<year>_validated.json], one
      record per line, opened in append mode;
    - [errors]: the error logs [data/errors/games_<year>_errors.json],
      opened in append mode, kept as one log in writing order where each
      line is tagged with the year of the file that received it;
    - [clean]: the Parquet tables;
    - [reports]: the quality reports. *)
Record Fs : Type := {
  raw : gmap Z (list json);
  validated : gmap Z (list json);
  errors : list (Z * ErrorRecord);
  clean : gmap Z (list FlatRow);
  reports : gmap Z QualityReport
}.

Definition errors_file (fs : Fs) (year : Z) : list ErrorRecord :=
  (filter (fun l => l.1 = year) (errors fs)).*2.

Definition append_validated (year : Z) (line : json) (fs : Fs) : Fs :=
  {| raw := raw fs;
     validated := <[year := default [] (validated fs !! year) ++ [line]]>
                    (validated fs);
     errors := errors fs;
     clean := clean fs;
     reports := reports fs |}.

Definition append_error (year : Z) (er_s : ErrorRecord) (fs : Fs) : Fs :=
  {| raw := raw fs;
     validated := validated fs;
     errors := errors fs ++ [(year, er_s)];
     clean := clean fs;
     reports := reports fs |}.

Definition write_clean_and_report (year : Z) (rows : list FlatRow)
    (report : QualityReport) (fs : Fs) : Fs :=
  {| raw := raw fs;
     validated := validated fs;
     errors := errors fs;
     clean := <[year := rows]> (clean fs);
     reports := <[year := report]> (reports fs) |}.

Section Script.
Context `{Schema.Pydantic}.

(** The text looked for in the message of the [ValidationError]. *)
Definition same_team_marker : string :=
  "Home and visitor teams cannot be identical".

(** The [if]/[else] that classifies an error: the counter to increment
    and the tag of the error line. *)
Definition classify (msg : string) (c : Counters) : Counters * string :=
  if Py.contains same_team_marker msg
  then ({| invalid_schema := invalid_schema c;
           same_team := same_team c + 1 |}, "same_team")
  else ({| invalid_schema := invalid_schema c + 1;
           same_team := same_team c |}, "invalid_schema").

(** The body of [for game in games_data], as a change of the files and
    of the counters.  An exception leaves both as they are when it is
    raised: in the handler the counter is incremented before [game.get]
    is called and before the error line is written. *)
Definition validate_game (year : Z) (fs : Fs) (c : Counters) (game : json)
  : Fs * Counters * result unit :=
  match Schema.model_validate game with
  | Schema.VOk g =>
      (append_validated year (JObj (Schema.model_dump g)) fs, c, Ok tt)
  | Schema.VErr es =>
      let msg := Schema.ValidationError_str "Game" es in
      let '(c', err_type) := classify msg c in
      match
        hint ← Py.attr_get game "id";
        season ← Py.attr_get game "season";
        Ok (hint, season)
      with
      | Ok (hint, season) =>
          let er_s := {| er_type := err_type;
                         er_game_id_hint := hint;
                         er_season := season;
                         er_reason := Py.slice_to 300 msg |} in
          (append_error year er_s fs, c', Ok tt)
      | Raise e => (fs, c', Raise e)
      end
  end.

(** [for game in games_data: ...] *)
Fixpoint validate_games (year : Z) (fs : Fs) (c : Counters)
    (games_data : list json) : Fs * Counters * result unit :=
  match games_data with
  | [] => (fs, c, Ok tt)
  | game :: rest =>
      match validate_game year fs c game with
      | (fs', c', Ok _) => validate_games year fs' c' rest
      | (fs', c', Raise e) => (fs', c', Raise e)
      end
  end.

(** The body of [for file in files]: open and load the file, validate
    its records. *)
Definition validate_file (year : Z) (fs : Fs) (c : Counters)
  : Fs * Counters * result unit :=
  match raw fs !! year with
  | None => (fs, c, Raise FileNotFoundError)
  | Some games_data => validate_games year fs c games_data
  end.

(** [for file in files: ...] *)
Fixpoint validate_files (years : list Z) (fs : Fs) (c : Counters)
  : Fs * Counters * result unit :=
  match years with
  | [] => (fs, c, Ok tt)
  | year :: rest =>
      match validate_file year fs c with
      | (fs', c', Ok _) => validate_files rest fs' c'
      | (fs', c', Raise e) => (fs', c', Raise e)
      end
  end.

End Script.

(** [range(2020, 2025)], the seasons of [validate_file]. *)
Definition validate_years : list Z := [2020; 2021; 2022; 2023; 2024].

(** [sum(1 for year in range(2020, 2025) if os.path.exists(...))]. *)
Definition count_validated (fs : Fs) : Z :=
  Z.of_nat (length (filter (fun y => is_Some (validated fs !! y))
                           validate_years)).

(** [for line in f: row.append(flatten(json.loads(line)))]. *)
Fixpoint flatten_lines (lines : list json) : result (list FlatRow) :=
  match lines with
  | [] => Ok []
  | line :: rest =>
      r ← flatten_line line;
      rs ← flatten_lines rest;
      Ok (r :: rs)
  end.

(** What the second loop has done: the files as they are now, the
    reports written so far in writing order, and the exception that
    stopped the loop, if any. *)
Record Outcome : Type := {
  files_after : Fs;
  written : list (Z * QualityReport);
  raised : option exn
}.

(** pandas and pyarrow: [pd.DataFrame(row)] followed by
    [df.to_parquet(outpath, index=False)].  Whether a list of rows
    makes a table that can be written is the libraries' decision: an
    integer that does not fit 64 bits raises [OverflowError], a column
    that mixes strings and numbers [ArrowTypeError].  The rows are
    converted before the file is opened, so that a table that is refused
    leaves the files as they are. *)
Class Pandas : Type := {
  to_parquet : list FlatRow -> result unit
}.

Section Tables.
Context `{Pandas}.

(** The body of [for path in validate_file], for the counters [c] of the
    process.  The Parquet table is written once every line is flattened,
    the report once the table is written. *)
Definition clean_year (c : Counters) (year : Z) (fs : Fs)
  : Fs * result (option QualityReport) :=
  match validated fs !! year with
  | None => (fs, Ok None)
  | Some lines =>
      match flatten_lines lines with
      | Raise e => (fs, Raise e)
      | Ok row =>
          match to_parquet row with
          | Raise e => (fs, Raise e)
          | Ok _ =>
              let quality_report :=
                {| total_valid := count_validated fs; error_counts := c |} in
              (write_clean_and_report year row quality_report fs,
               Ok (Some quality_report))
          end
      end
  end.

Fixpoint clean_years (c : Counters) (years : list Z) (fs : Fs)
    (log : list (Z * QualityReport)) : Outcome :=
  match years with
  | [] => {| files_after := fs; written := log; raised := None |}
  | year :: rest =>
      match clean_year c year fs with
      | (fs', Ok None) => clean_years c rest fs' log
      | (fs', Ok (Some r)) => clean_years c rest fs' (log ++ [(year, r)])
      | (fs', Raise e) =>
          {| files_after := fs'; written := log; raised := Some e |}
      end
  end.

End Tables.

(** The whole script, started on the files [fs]. *)
Definition main `{Schema.Pydantic} `{Pandas} (fs : Fs) : Outcome :=
  match validate_files files fs counters with
  | (fs', _, Raise e) =>
      {| files_after := fs'; written := []; raised := Some e |}
  | (fs', c, Ok _) => clean_years c validate_years fs' []
  end.

End Validate.

(* ===================================================================== *)
(** * scripts/ingest.py                                                   *)
(* ===================================================================== *)

Module Ingest.

Definition SEASONS : list Z := [2020; 2021; 2022; 2023; 2024].
Definition MAX_PAGES : Z := 60.

(** The query of a request, [params]: the first request of a season has
    no ["cursor"] key. *)
Record Request : Type := {
  per_page : Z;
  seasons : Z;
  cursor : option json
}.

(** What the script reads of a response [resp]: [resp.status_code] and
    [resp.json()].  [body] is [None] when the body is not JSON:
    [resp.json()] then raises [JSONDecodeError]. *)
Record Response : Type := {
  status_code : Z;
  body : option json
}.

(** The remote source, as [requests.get] gives it: its answer to the
    [n]-th request sent for a season (counting from 0), given the query,
    or the exception the call raises. *)
Definition Remote : Type := nat -> Request -> result Response.

(** What the script does to the outside world, in order. *)
Inductive event : Type :=
  | Get (req : Request)
  | Sleep (seconds : Z).

(** [resp.raise_for_status()]: client and server error codes raise. *)
Definition raise_for_status (resp : Response) : result unit :=
  if (400 <=? status_code resp) && (status_code resp <? 600)
  then Raise (HTTPError (status_code resp))
  else Ok tt.

(** [resp.json()]. *)
Definition json_of (resp : Response) : result json :=
  match body resp with
  | Some payload => Ok payload
  | None => Raise JSONDecodeError
  end.

(** [payload.get('data', [])]. *)
Definition page_items_of (payload : json) : result json :=
  Py.attr_get_or payload "data" (JArr []).

(** [payload.get("meta", {}).get("next_cursor")]. *)
Definition next_cursor_of (payload : json) : result json :=
  meta ← Py.attr_get_or payload "meta" (JObj ∅);
  Py.attr_get meta "next_cursor".

(** The first page, from [resp.raise_for_status()] to
    [all_games.extend(page_items)]: the cursor and the items added. *)
Definition read_first_page (resp : Response) : result (json * list json) :=
  _ ← raise_for_status resp;
  payload ← json_of resp;
  page_items ← page_items_of payload;
  cursor ← next_cursor_of payload;
  items ← Py.iterate page_items;
  Ok (cursor, items).

(** A page of the loop, from [resp.raise_for_status()] to
    [all_games.extend(page_items)]: [None] when [not page_items] ends the
    loop, else the cursor and the items added. *)
Definition read_page (resp : Response) : result (option (json * list json)) :=
  _ ← raise_for_status resp;
  payload ← json_of resp;
  page_items ← page_items_of payload;
  if Py.truthy page_items then
    cursor ← next_cursor_of payload;
    items ← Py.iterate page_items;
    Ok (Some (cursor, items))
  else Ok None.

Section Fetch.
Variable max_pages : Z.
Variable remote : Remote.
Variable years : Z.

(** [while cursor and page < MAX_PAGES: ...].  Every iteration adds one
    to [page], also the one that ends in [continue], so that
    [max_pages - page] iterations at most can run: [fuel] is that number
    (see [pagination_fuel]).  [sent] counts the requests sent so far and
    [trace] records them with the pauses.  The result is the value of
    [page] and [all_games] when the loop ends, or the exception raised. *)
Fixpoint pagination (fuel : nat) (page : Z) (cursor : json)
    (all_games : list json) (sent : nat) (trace : list event)
  : list event * result (Z * list json) :=
  match fuel with
  | O => (trace, Ok (page, all_games))
  | S fuel' =>
      if Py.truthy cursor && (page <? max_pages) then
        let page := page + 1 in
        let params :=
          {| per_page := 100; seasons := years; cursor := Some cursor |} in
        let trace := trace ++ [Get params] in
        match remote sent params with
        | Raise e => (trace, Raise e)
        | Ok resp =>
            if status_code resp =? 429 then
              (* time.sleep(12); continue *)
              pagination fuel' page cursor all_games (S sent)
                         (trace ++ [Sleep 12])
            else
              match read_page resp with
              | Raise e => (trace, Raise e)
              | Ok None => (trace, Ok (page, all_games))      (* break *)
              | Ok (Some (cursor, page_items)) =>
                  pagination fuel' page cursor (all_games ++ page_items)
                             (S sent) (trace ++ [Sleep 12])
              end
        end
      else (trace, Ok (page, all_games))
  end.

(** The body of [for years in SEASONS]: the first request, retried once
    after a pause when it is answered 429, then the pages that follow.
    The result is what is written to [data/raw/games_<years>.json]. *)
Definition fetch_season : list event * result (list json) :=
  let page := 1 in
  let params := {| per_page := 100; seasons := years; cursor := None |} in
  match remote 0%nat params with
  | Raise e => ([Get params], Raise e)
  | Ok resp =>
      let '(resp, sent, trace) :=
        if status_code resp =? 429
        then (remote 1%nat params, 2%nat, [Get params; Sleep 12; Get params])
        else (Ok resp, 1%nat, [Get params]) in
      match resp ≫= read_first_page with
      | Raise e => (trace, Raise e)
      | Ok (cursor, all_games) =>
          match pagination (Z.to_nat (max_pages - page)) page cursor
                           all_games sent trace with
          | (trace, Ok (_, all_games)) => (trace, Ok all_games)
          | (trace, Raise e) => (trace, Raise e)
          end
      end
  end.

End Fetch.

(** The number of page requests in a trace. *)
Definition is_get (e : event) : bool :=
  match e with Get _ => true | Sleep _ => false end.

Definition requests (trace : list event) : nat :=
  length (List.filter is_get trace).

End Ingest.

(* ===================================================================== *)
(** * The answers of the remote API                                       *)
(* ===================================================================== *)

(** The answers the script is written for: a status code and a body of
    the shape [{"data": [...], "meta": {"next_cursor": ...}}]. *)
Module Api.

Record Page : Type := {
  status : Z;
  data : list json;
  next_cursor : json
}.

(** A source all of whose answers have that shape: its answer to the
    [n]-th request sent for a season, given the query. *)
Definition Source : Type := nat -> Ingest.Request -> Page.

Definition payload (p : Page) : json :=
  JObj {[ "data" := JArr (data p);
          "meta" := JObj {[ "next_cursor" := next_cursor p ]} ]}.

Definition response (p : Page) : Ingest.Response :=
  {| Ingest.status_code := status p; Ingest.body := Some (payload p) |}.

(** The source as [requests.get] gives it: every request is answered. *)
Definition serve (source : Source) : Ingest.Remote :=
  fun n req => Ok (response (source n req)).

End Api.

(* ===================================================================== *)
(** * scripts/compute_indicators.py                                       *)
(* ===================================================================== *)

Module Indicators.

(** The columns of the clean tables the script reads.  Means are
    computed exactly, as rationals. *)
Record Row : Type := {
  home_team_full_name : string;
  home_team_score : Z;
  visitor_team_full_name : string;
  visitor_team_score : Z
}.

(** [df["home_win"]], [df["visitor_win"]]. *)
Definition home_win (r : Row) : bool :=
  visitor_team_score r <? home_team_score r.
Definition visitor_win (r : Row) : bool :=
  home_team_score r <? visitor_team_score r.

(** A pandas [Series] indexed by team name. *)
Definition Series (A : Type) : Type := list (string * A).

Fixpoint loc {A} (s : Series A) (k : string) : option A :=
  match s with
  | [] => None
  | (k', v) :: s' => if String.eqb k k' then Some v else loc s' k
  end.

(** [df.groupby(key)[col]]: the values of [col] per key, keys sorted. *)
Fixpoint group_add {A} (k : string) (v : A) (groups : Series (list A))
  : Series (list A) :=
  match groups with
  | [] => [(k, [v])]
  | (k', vs) :: rest =>
      match String.compare k k' with
      | Eq => (k', vs ++ [v]) :: rest
      | Lt => (k, [v]) :: groups
      | Gt => (k', vs) :: group_add k v rest
      end
  end.

Definition groupby {A} (key : Row -> string) (col : Row -> A)
    (df : list Row) : Series (list A) :=
  fold_left (fun groups r => group_add (key r) (col r) groups) df [].

Definition sum_Z (l : list Z) : Z := fold_right Z.add 0 l.

(** [.mean()] *)
Definition mean (groups : Series (list Z)) : Series Q :=
  map (fun g => (g.1, Qred (inject_Z (sum_Z g.2)
                            / inject_Z (Z.of_nat (length g.2))))) groups.

(** [.sum()] of a column of booleans. *)
Definition sum_bool (groups : Series (list bool)) : Series Z :=
  map (fun g => (g.1, Z.of_nat (length (filter (fun b => b = true) g.2))))
      groups.

(** [a + b] on two series: the index is the sorted union of the two
    indexes, and a label missing on one side gives [NaN] ([None]). *)
Fixpoint key_add (k : string) (keys : list string) : list string :=
  match keys with
  | [] => [k]
  | k' :: rest =>
      match String.compare k k' with
      | Eq => keys
      | Lt => k :: keys
      | Gt => k' :: key_add k rest
      end
  end.

Definition add_series {A} (add : A -> A -> A) (a b : Series A)
  : Series (option A) :=
  let index := fold_right key_add [] (map fst a ++ map fst b) in
  map (fun k => (k, match loc a k, loc b k with
                    | Some x, Some y => Some (add x y)
                    | _, _ => None
                    end)) index.

(** [.sort_values()]: by value for the order [le], [NaN] last.  Pandas
    does not fix the order of labels with equal values; they are kept in
    index order here. *)
Definition value_le {A} (le : A -> A -> bool) (x y : option A) : bool :=
  match x, y with
  | _, None => true
  | None, Some _ => false
  | Some a, Some b => le a b
  end.

Fixpoint sort_insert {A} (le : A -> A -> bool) (e : string * option A)
    (s : Series (option A)) : Series (option A) :=
  match s with
  | [] => [e]
  | e' :: s' =>
      if value_le le e.2 e'.2 && negb (value_le le e'.2 e.2)
      then e :: s
      else e' :: sort_insert le e s'
  end.

Definition sort_values {A} (le : A -> A -> bool) (s : Series (option A))
  : Series (option A) :=
  fold_left (fun acc e => sort_insert le e acc) s [].

Definition Qge_bool (x y : Q) : bool := Qle_bool y x.

(** The home and away components of the defensive average: points
    conceded at home, points conceded away. *)
Definition conceded_home (df : list Row) : Series Q :=
  mean (groupby home_team_full_name visitor_team_score df).
Definition conceded_away (df : list Row) : Series Q :=
  mean (groupby visitor_team_full_name home_team_score df).

Definition best_attacks (df : list Row) : Series (option Q) :=
  sort_values Qge_bool
    (add_series Qplus
       (mean (groupby home_team_full_name home_team_score df))
       (mean (groupby visitor_team_full_name visitor_team_score df))).

Definition best_defenses (df : list Row) : Series (option Q) :=
  sort_values Qle_bool
    (add_series Qplus (conceded_home df) (conceded_away df)).

Definition wins (df : list Row) : Series (option Z) :=
  sort_values Z.geb
    (add_series Z.add
       (sum_bool (groupby home_team_full_name home_win df))
       (sum_bool (groupby visitor_team_full_name visitor_win df))).

(** [report]: each table cut to its first ten lines. *)
Record Report : Type := {
  report_best_attacks : Series (option Q);
  report_best_defenses : Series (option Q);
  report_wins : Series (option Z)
}.

Definition report (df : list Row) : Report :=
  {| report_best_attacks := take 10 (best_attacks df);
     report_best_defenses := take 10 (best_defenses df);
     report_wins := take 10 (wins df) |}.

End Indicators.

(* ===================================================================== *)
(** * A concrete validation library, to run the scripts                   *)
(* ===================================================================== *)

(** An instance of [Schema.Pydantic] that covers the inputs the remote
    source sends: dates written [YYYY-MM-DD], datetimes written
    [YYYY-MM-DDTHH:MM:SS] with an optional [Z] or [.000Z], integers
    written in decimal, the boolean words pydantic knows.  It is used to
    evaluate the scripts on concrete records. *)
Module Sample.

Definition is_digit (a : Ascii.ascii) : bool :=
  let n := Ascii.nat_of_ascii a in (Nat.leb 48 n) && (Nat.leb n 57).

Fixpoint digits_value (s : string) (acc : Z) : option Z :=
  match s with
  | EmptyString => Some acc
  | String a s' =>
      if is_digit a
      then digits_value s' (10 * acc + Z.of_nat (Ascii.nat_of_ascii a - 48))
      else None
  end.

Definition unsigned_value (s : string) : option Z :=
  match s with
  | EmptyString => None
  | _ => digits_value s 0
  end.

Definition str_as_int (s : string) : option Z :=
  match s with
  | String "-"%char s' => Z.opp <$> unsigned_value s'
  | String "+"%char s' => unsigned_value s'
  | _ => unsigned_value s
  end.

Definition lower (a : Ascii.ascii) : Ascii.ascii :=
  let n := Ascii.nat_of_ascii a in
  if (Nat.leb 65 n) && (Nat.leb n 90) then Ascii.ascii_of_nat (n + 32) else a.

Fixpoint lowercase (s : string) : string :=
  match s with
  | EmptyString => EmptyString
  | String a s' => String (lower a) (lowercase s')
  end.

Definition str_as_bool (s : string) : option bool :=
  let w := lowercase s in
  if bool_decide (w ∈ ["0"; "off"; "f"; "false"; "n"; "no"]) then Some false
  else if bool_decide (w ∈ ["1"; "on"; "t"; "true"; "y"; "yes"]) then Some true
  else None.

(** [shape p s]: [s] follows the pattern [p], where [d] stands for a
    digit and any other character for itself. *)
Fixpoint shape (p s : string) : bool :=
  match p, s with
  | EmptyString, EmptyString => true
  | String c p', String a s' =>
      (if Ascii.eqb c "d"%char then is_digit a else Ascii.eqb c a) && shape p' s'
  | _, _ => false
  end.

Definition date_validate (v : json) : Schema.lib_error + string :=
  match v with
  | JStr s =>
      if shape "dddd-dd-dd" s then inr s
      else inl {| Schema.err_type := "date_from_datetime_parsing";
                  Schema.err_msg := "Input should be a valid date or datetime" |}
  | _ => inl {| Schema.err_type := "date_type";
                Schema.err_msg := "Input should be a valid date" |}
  end.

Definition datetime_validate (v : json) : Schema.lib_error + string :=
  match v with
  | JStr s =>
      let head := String.substring 0 19 s in
      let tail := String.substring 19 (String.length s - 19) s in
      if shape "dddd-dd-ddTdd:dd:dd" head
         && bool_decide (tail ∈ [""; "Z"; ".000Z"])
      then inr (head +:+ (if String.eqb tail "" then "" else "Z"))
      else inl {| Schema.err_type := "datetime_from_date_parsing";
                  Schema.err_msg := "Input should be a valid datetime or date" |}
  | _ => inl {| Schema.err_type := "datetime_type";
                Schema.err_msg := "Input should be a valid datetime" |}
  end.

Definition str_of_Z (n : Z) : string :=
  if n <? 0 then "-" +:+ Py.str_of_nat (Z.to_nat (- n))
  else Py.str_of_nat (Z.to_nat n).

(** The [repr] shown in an error line is cut to its first 25 and last 24
    characters, around an ellipsis, when it is longer than 50.  Lists and
    dictionaries are abbreviated here: their [repr] depends on the order
    of the keys, which [gmap] does not keep. *)
Definition truncate (r : string) : string :=
  if Nat.ltb 50 (String.length r)
  then String.substring 0 25 r +:+ "..."
       +:+ String.substring (String.length r - 24) 24 r
  else r.

Definition input_repr (v : json) : string :=
  truncate
    match v with
    | JNull => "None"
    | JBool b => if b then "True" else "False"
    | JInt n => str_of_Z n
    | JStr s => "'" +:+ s +:+ "'"
    | JArr _ => "[...]"
    | JObj _ => "{...}"
    end.

#[global] Instance pydantic : Schema.Pydantic := {|
  Schema.date_t := string;
  Schema.datetime_t := string;
  Schema.date_validate := date_validate;
  Schema.datetime_validate := datetime_validate;
  Schema.date_dump := fun s => s;
  Schema.datetime_dump := fun s => s;
  Schema.str_as_int := str_as_int;
  Schema.str_as_bool := str_as_bool;
  Schema.input_repr := input_repr;
  Schema.version := "2.11"
|}.

(** An instance of [Validate.Pandas], to run the second loop of
    [validate.py] on the examples: a table is written when its integers
    fit 64 bits and no column mixes values of different types ([None]
    apart). *)
Definition fits_int64 (v : json) : bool :=
  match v with
  | JInt n => (- 2 ^ 63 <=? n) && (n <? 2 ^ 63)
  | _ => true
  end.

Definition is_none (v : json) : bool :=
  match v with JNull => true | _ => false end.

Definition one_type (column : list json) : bool :=
  match List.filter (fun v => negb (is_none v)) column with
  | [] => true
  | v :: vs =>
      forallb (fun w => String.eqb (Py.type_name w) (Py.type_name v)) vs
  end.

Definition columns (rows : list Validate.FlatRow) : list (list json) :=
  (fun column => column <$> rows)
    <$> [Validate.game_id; Validate.date; Validate.season; Validate.status;
         Validate.periode; Validate.postseason;
         Validate.home_team_id; Validate.home_team_full_name;
         Validate.home_team_score;
         Validate.visitor_team_id; Validate.visitor_team_full_name;
         Validate.visitor_team_score].

Definition to_parquet (rows : list Validate.FlatRow) : result unit :=
  if negb (forallb (forallb fits_int64) (columns rows))
  then Raise OverflowError
  else if negb (forallb one_type (columns rows))
  then Raise ArrowTypeError
  else Ok tt.

#[global] Instance pandas : Validate.Pandas := {|
  Validate.to_parquet := to_parquet
|}.

(** *** Records and files used in the examples *)

Definition team (id : Z) (city name abbreviation : string) : json :=
  JObj (list_to_map
    [("id", JInt id);
     ("conference", JStr "East");
     ("division", JStr "Atlantic");
     ("city", JStr city);
     ("name", JStr name);
     ("full_name", JStr (city +:+ " " +:+ name));
     ("abbreviation", JStr abbreviation)]).

Definition celtics : json := team 2 "Boston" "Celtics" "BOS".
Definition nets : json := team 3 "Brooklyn" "Nets" "BKN".

(** A record as the remote source sends it, with the given [id] and
    teams. *)
Definition game_record (id home visitor : json) : gmap string json :=
  list_to_map
    [("id", id);
     ("date", JStr "2021-01-15");
     ("season", JInt 2021);
     ("status", JStr "Final");
     ("period", JInt 4);
     ("time", JStr "Final");
     ("postseason", JBool false);
     ("home_team_score", JInt 110);
     ("visitor_team_score", JInt 90);
     ("datetime", JStr "2021-01-15T00:00:00.000Z");
     ("home_team", home);
     ("visitor_team", visitor)].

Definition valid_game : json := JObj (game_record (JInt 17) celtics nets).
Definition same_team_game : json := JObj (game_record (JInt 18) celtics celtics).
Definition string_id_game : json := JObj (game_record (JStr "7") celtics nets).

Definition no_files : Validate.Fs :=
  {| Validate.raw := ∅;
     Validate.validated := ∅;
     Validate.errors := [];
     Validate.clean := ∅;
     Validate.reports := ∅ |}.

Definition with_raw (raw : gmap Z (list json)) : Validate.Fs :=
  {| Validate.raw := raw;
     Validate.validated := ∅;
     Validate.errors := [];
     Validate.clean := ∅;
     Validate.reports := ∅ |}.

(** The five input files, the first with a valid record and a record
    whose two teams are the same, the others empty. *)
Definition five_files : Validate.Fs :=
  with_raw (list_to_map [(2020, [valid_game; same_team_game]);
                         (2021, []); (2022, []); (2023, []); (2024, [])]).

(** A source whose pages are never empty and whose cursor is always 0. *)
Definition zero_cursor_remote : Api.Source := fun _ _ =>
  {| Api.status := 200;
     Api.data := [valid_game];
     Api.next_cursor := JInt 0 |}.

(** A source that answers the first request with a page and the cursor
    7, and every later request with 429. *)
Definition rate_limiting_remote : Api.Source := fun n _ =>
  match n with
  | O => {| Api.status := 200;
            Api.data := [valid_game];
            Api.next_cursor := JInt 7 |}
  | S _ => {| Api.status := 429;
              Api.data := [];
              Api.next_cursor := JNull |}
  end.


(** A source with an endless chain of pages. *)
Definition endless_remote : Api.Source := fun n _ =>
  {| Api.status := 200;
     Api.data := [valid_game];
     Api.next_cursor := JInt (Z.of_nat n + 1) |}.

Definition first_request (years : Z) : Ingest.Request :=
  {| Ingest.per_page := 100; Ingest.seasons := years; Ingest.cursor := None |}.
Definition next_request (years : Z) (cursor : json) : Ingest.Request :=
  {| Ingest.per_page := 100; Ingest.seasons := years;
     Ingest.cursor := Some cursor |}.

(** The two games of the aggregation example: Team A beats Team B at
    home 110-90, Team B beats Team A at home 105-95. *)
Definition two_games : list Indicators.Row :=
  [ {| Indicators.home_team_full_name := "Team A";
       Indicators.home_team_score := 110;
       Indicators.visitor_team_full_name := "Team B";
       Indicators.visitor_team_score := 90 |};
    {| Indicators.home_team_full_name := "Team B";
       Indicators.home_team_score := 105;
       Indicators.visitor_team_full_name := "Team A";
       Indicators.visitor_team_score := 95 |} ].

End Sample.

(* ===================================================================== *)
(** * Notions used to state the properties                                *)
(* ===================================================================== *)

Module Run.
Import Validate.

(** The number of lines of type [t] in an error log. *)
Definition count_type (t : string) (log : list (Z * ErrorRecord)) : Z :=
  Z.of_nat (length (filter (fun l => er_type l.2 = t) log)).

(** A point of a validation run: the files and the counters of the
    process between two records.  [step x y]: from [x], the body of the
    loop runs to its end on some record of some file and leaves [y]. *)
Definition step `{Schema.Pydantic} (x y : Fs * Counters) : Prop :=
  exists year game, validate_game year x.1 x.2 game = (y, Ok tt).

Definition steps `{Schema.Pydantic} : relation (Fs * Counters) := rtc step.

(** A source that always returns a page of items with a cursor the
    loop follows (a true value: not [None], 0, an empty string, ...). *)
Definition always_pages (remote : Api.Source) : Prop :=
  forall n req,
    Api.status (remote n req) = 200
    /\ Api.data (remote n req) ≠ []
    /\ Py.truthy (Api.next_cursor (remote n req)) = true.

(** The same with a cursor that is merely not [None]. *)
Definition always_pages_nonnull (remote : Api.Source) : Prop :=
  forall n req,
    Api.status (remote n req) = 200
    /\ Api.data (remote n req) ≠ []
    /\ Api.next_cursor (remote n req) ≠ JNull.

(** [ok_to x y]: whenever [x] is a validated value, [y] is the same
    value.  (The errors of [x] and [y] may differ: an error line quotes
    the input.) *)
Definition ok_to {A} (x y : Schema.vres A) : Prop :=
  forall a, x = Schema.VOk a -> y = Schema.VOk a.

(** The keys of [extra] are not fields of the model. *)
Definition unknown (fields : list string) (extra : gmap string json) : Prop :=
  forall k, k ∈ fields -> extra !! k = None.

(** A team object with the keys of [extra] added. *)
Definition extend_team (extra : gmap string json) (v : json) : json :=
  match v with
  | JObj t => JObj (t ∪ extra)
  | _ => v
  end.

(** A raw record with the keys of [extra] added at top level and those
    of [extra_home] and [extra_visitor] added to its two team objects. *)
Definition add_unknown_fields (extra extra_home extra_visitor : gmap string json)
    (r : gmap string json) : gmap string json :=
  alter (extend_team extra_home) "home_team"
    (alter (extend_team extra_visitor) "visitor_team" (r ∪ extra)).

(** The value of a label in a table of averages. *)
Definition has_value (s : Indicators.Series Q) (k : string) (q : Q) : Prop :=
  match Indicators.loc s k with
  | Some v => v == q
  | None => False
  end.

Definition is_object (v : json) : Prop :=
  match v with JObj _ => True | _ => False end.

(** The value under [k], when [k] is absent or holds a dictionary. *)
Definition dict_or_absent (o : option json) : Prop :=
  match o with
  | None | Some (JObj _) => True
  | Some _ => False
  end.

End Run.

(* ===================================================================== *)
(** * Further notions: fields of the schema                               *)
(* ===================================================================== *)

Module SchemaProps.

(** The fields of [Game] declared [IntGE0] or [Optional[IntGE0]]. *)
Definition counted_fields : list string :=
  ["period"; "home_team_score"; "visitor_team_score";
   "home_q1"; "home_q2"; "home_q3"; "home_q4";
   "home_ot1"; "home_ot2"; "home_ot3"; "home_timeouts_remaining";
   "visitor_q1"; "visitor_q2"; "visitor_q3"; "visitor_q4";
   "visitor_ot1"; "visitor_ot2"; "visitor_ot3";
   "visitor_timeouts_remaining"].

(** The fields of [Game] declared without a default value. *)
Definition required_fields : list string :=
  ["id"; "date"; "season"; "status"; "period"; "time"; "postseason";
   "home_team_score"; "visitor_team_score"; "datetime";
   "home_team"; "visitor_team"].

(** The optional counts of a validated game. *)
Definition optional_counts `{Schema.Pydantic} (g : Schema.Game)
  : list (option Z) :=
  [Schema.home_q1 g; Schema.home_q2 g; Schema.home_q3 g; Schema.home_q4 g;
   Schema.home_ot1 g; Schema.home_ot2 g; Schema.home_ot3 g;
   Schema.home_timeouts_remaining g;
   Schema.visitor_q1 g; Schema.visitor_q2 g; Schema.visitor_q3 g;
   Schema.visitor_q4 g;
   Schema.visitor_ot1 g; Schema.visitor_ot2 g; Schema.visitor_ot3 g;
   Schema.visitor_timeouts_remaining g].

(** The fields of [Game] declared [Optional[...] = None]. *)
Definition optional_fields : list string :=
  ["home_q1"; "home_q2"; "home_q3"; "home_q4";
   "home_ot1"; "home_ot2"; "home_ot3";
   "home_timeouts_remaining"; "home_in_bonus";
   "visitor_q1"; "visitor_q2"; "visitor_q3"; "visitor_q4";
   "visitor_ot1"; "visitor_ot2"; "visitor_ot3";
   "visitor_timeouts_remaining"; "visitor_in_bonus"].

(** Two values of a key that an optional field does not tell apart:
    the same value, or an absent key and an explicit [None]. *)
Definition same_or_null (o o' : option json) : Prop :=
  o' = o \/ ((o = None \/ o = Some JNull) /\ (o' = None \/ o' = Some JNull)).

Definition nonneg_if_present (o : option Z) : Prop :=
  forall n, o = Some n -> 0 <= n.

(** Validation fails and reports the error line [e]. *)
Definition fails_with {A} (e : Schema.line_error) (x : Schema.vres A) : Prop :=
  exists es, x = Schema.VErr es /\ e ∈ es.

End SchemaProps.

(* ===================================================================== *)
(** * Further notions: the lines a validation run writes                  *)
(* ===================================================================== *)

Module ValidateProps.
Import Validate.

Section Lines.
Context `{Schema.Pydantic}.


(** The error line of a rejected record: [er_s] in the handler. *)
Definition error_record (es : list Schema.line_error)
    (d : gmap string json) : ErrorRecord :=
  let msg := Schema.ValidationError_str "Game" es in
  {| er_type := (classify msg counters).2;
     er_game_id_hint := Py.get d "id";
     er_season := Py.get d "season";
     er_reason := Py.slice_to 300 msg |}.


End Lines.


(** A line of a validated file that [flatten] accepts. *)
Definition flattens (line : json) : Prop :=
  exists row, flatten_line line = Ok row.

(** Every line of every validated file is accepted by [flatten]. *)
Definition all_flatten (fs : Fs) : Prop :=
  forall y lines, validated fs !! y = Some lines -> Forall flattens lines.

(** The table of the season [y] is one the Parquet writer accepts, and
    so are the tables of all the seasons of the second loop. *)
Definition table_accepted `{Pandas} (fs : Fs) (y : Z) : Prop :=
  match validated fs !! y with
  | Some lines =>
      match flatten_lines lines with
      | Ok rows => to_parquet rows = Ok tt
      | Raise _ => True
      end
  | None => True
  end.

Definition tables_accepted `{Pandas} (fs : Fs) : Prop :=
  Forall (table_accepted fs) validate_years.

(** The report [r] and the table of the season [y] are on disk, the
    table being the validated file of the season, flattened. *)
Definition stored (fs : Fs) (y : Z) (r : QualityReport) : Prop :=
  reports fs !! y = Some r
  /\ exists lines rows,
       validated fs !! y = Some lines
       /\ flatten_lines lines = Ok rows
       /\ clean fs !! y = Some rows
       /\ length rows = length lines.

End ValidateProps.

(* ===================================================================== *)
(** * scripts/ingest.py: the loop over the seasons                        *)
(* ===================================================================== *)

Module IngestScript.

(** [for years in SEASONS: ...]: each season is fetched from the source
    and, when the fetch ends without an exception, written to
    [data/raw/games_<years>.json] (the map [files], by season).  An
    exception ends the script.  [remote years] is the source as seen
    by the requests of the season [years]. *)
Fixpoint ingest_seasons (max_pages : Z) (remote : Z -> Ingest.Remote)
    (seasons : list Z) (files : gmap Z (list json))
  : gmap Z (list json) * option exn :=
  match seasons with
  | [] => (files, None)
  | years :: rest =>
      match (Ingest.fetch_season max_pages (remote years) years).2 with
      | Ok all_games =>
          ingest_seasons max_pages remote rest (<[years := all_games]> files)
      | Raise e => (files, Some e)
      end
  end.

Definition ingest (remote : Z -> Ingest.Remote) (files : gmap Z (list json))
  : gmap Z (list json) * option exn :=
  ingest_seasons Ingest.MAX_PAGES remote Ingest.SEASONS files.

End IngestScript.

(* ===================================================================== *)
(** * Further notions: sources and traces                                 *)
(* ===================================================================== *)

Module IngestProps.
Import Ingest Api.

(** The cursor that leads to the page number [k]. *)
Definition cursor_at (pages : list (list json)) (last_cursor : json)
    (k : nat) : json :=
  if decide (k < length pages)%nat then JInt (Z.of_nat k) else last_cursor.

(** A source that serves the pages of a list, one per request.  Each
    page but the last comes with a cursor; the last page comes with
    [last_cursor], and any further request is answered [after]. *)
Definition serving (pages : list (list json)) (last_cursor : json)
    (after : Page) : Source := fun n _ =>
  match pages !! n with
  | Some page =>
      {| status := 200;
         data := page;
         next_cursor := cursor_at pages last_cursor (S n) |}
  | None => after
  end.

(** The pages of a list, the last one without a cursor. *)
Definition paged (pages : list (list json)) : Source :=
  serving pages JNull
    {| status := 200; data := []; next_cursor := JNull |}.

(** The pages of a list, then empty pages, always with a cursor. *)
Definition paged_then_empty (pages : list (list json)) : Source :=
  serving pages (JInt (Z.of_nat (length pages)))
    {| status := 200; data := [];
       next_cursor := JInt (Z.of_nat (length pages)) |}.

(** The pages of a list, always with a cursor, then the status
    [code]. *)
Definition paged_then_status (pages : list (list json)) (code : Z)
  : Source :=
  serving pages (JInt (Z.of_nat (length pages)))
    {| status := code; data := []; next_cursor := JNull |}.

(** The items the script takes from an answer: what it adds to
    [all_games] when it reads the answer as a page. *)
Definition items_of (answer : result Response) : list json :=
  match
    resp ← answer;
    payload ← json_of resp;
    page_items ← page_items_of payload;
    Py.iterate page_items
  with
  | Ok items => items
  | Raise _ => []
  end.


(** The requests of the pagination loop and its pauses: each request is
    followed by a pause of 12, except the one on which the loop ends.
    Every request is for the season, asks for 100 items and carries a
    cursor that is true for Python. *)
Inductive loop_trace (years : Z) : list event -> Prop :=
  | loop_trace_nil : loop_trace years []
  | loop_trace_last cursor :
      Py.truthy cursor = true ->
      loop_trace years
        [Get {| per_page := 100; seasons := years; cursor := Some cursor |}]
  | loop_trace_pause cursor trace :
      Py.truthy cursor = true ->
      loop_trace years trace ->
      loop_trace years
        (Get {| per_page := 100; seasons := years; cursor := Some cursor |}
           :: Sleep 12 :: trace).

(** The request for the first page. *)
Definition first_params (years : Z) : Request :=
  {| per_page := 100; seasons := years; cursor := None |}.

(** Three pages of one item each, used as an example. *)
Definition three_pages : list (list json) :=
  [[Sample.valid_game]; [Sample.same_team_game]; [Sample.string_id_game]].



End IngestProps.

(* ===================================================================== *)
(** * Further notions: tables of indicators                               *)
(* ===================================================================== *)

Module IndicatorsProps.
Import Indicators.

(** The order of the labels of an index. *)
Definition label_lt (k k' : string) : Prop := String.compare k k' = Lt.

(** The values of a column for the rows whose key is [k], in the order
    of the rows. *)
Definition column_of {A} (key : Row -> string) (col : Row -> A)
    (df : list Row) (k : string) : list A :=
  col <$> filter (fun r => key r = k) df.

(** [a + b] at a label: the sum when the label is in both indexes,
    [NaN] when it is in one only, nothing when it is in neither. *)
Definition aligned {A} (add : A -> A -> A) (x y : option A)
  : option (option A) :=
  match x, y with
  | Some x, Some y => Some (Some (add x y))
  | None, None => None
  | _, _ => Some None
  end.

(** The number of [true] in a list of booleans, as [.sum()] counts. *)
Definition count_true (l : list bool) : Z :=
  Z.of_nat (length (filter (fun b => b = true) l)).

(** [.mean()] of a list of integers. *)
Definition mean_of (l : list Z) : Q :=
  Qred (inject_Z (sum_Z l) / inject_Z (Z.of_nat (length l))).

(** A group to which the values [vs] are appended. *)
Definition extend {A} (o : option (list A)) (vs : list A)
  : option (list A) :=
  match vs with
  | [] => o
  | _ => Some (default [] o ++ vs)
  end.

(** The aggregate [f] of a group, when the group is not empty. *)
Definition agg {A B} (f : list A -> B) (vs : list A) : option B :=
  match vs with
  | [] => None
  | _ => Some (f vs)
  end.

(** The order of a sorted table: [x] may come before [y]. *)
Definition before {A} (le : A -> A -> bool) (e e' : string * option A)
  : Prop :=
  value_le le e.2 e'.2 = true.

End IndicatorsProps.

(* ===================================================================== *)
(** * Properties of the schema                                            *)
(* ===================================================================== *)

Module SchemaFacts.
Import Schema Run.

Lemma vap_ok_inv {A B} (f : vres (A -> B)) (x : vres A) (b : B) :
  f <*> x = VOk b -> exists f0 a, f = VOk f0 /\ x = VOk a /\ b = f0 a.
Proof.
  destruct f as [f0|], x as [a|]; unfold vap; intros E; try discriminate.
  injection E as <-. eauto.
Qed.

Lemma ok_to_refl {A} (x : vres A) : ok_to x x.
Proof. intros a E. exact E. Qed.

Lemma ok_to_vap {A B} (f f' : vres (A -> B)) (x x' : vres A) :
  ok_to f f' -> ok_to x x' -> ok_to (f <*> x) (f' <*> x').
Proof.
  intros Hf Hx b E.
  apply vap_ok_inv in E as (f0 & a & Ef & Ex & ->).
  rewrite (Hf _ Ef), (Hx _ Ex). reflexivity.
Qed.

Section Facts.
Context `{Pydantic}.

Lemma ok_to_required {A} pre pre' (d d' : gmap string json) name
    (ty : json -> lib_error + A) :
  d' !! name = d !! name ->
  ok_to (required pre d name ty) (required pre' d' name ty).
Proof.
  intros E a. unfold required. rewrite E.
  destruct (d !! name) as [v|]; [|discriminate].
  destruct (ty v); [discriminate|]. trivial.
Qed.

Lemma ok_to_optional {A} pre pre' (d d' : gmap string json) name
    (ty : json -> lib_error + A) :
  d' !! name = d !! name ->
  ok_to (optional pre d name ty) (optional pre' d' name ty).
Proof.
  intros E a. unfold optional. rewrite E.
  destruct (d !! name) as [v|]; [|trivial].
  destruct (Optional ty v); [discriminate|]. trivial.
Qed.

Ltac in_fields := apply (bool_decide_unpack _); vm_compute; exact I.

Lemma lookup_union_unknown fields (d extra : gmap string json) k :
  unknown fields extra -> k ∈ fields -> (d ∪ extra) !! k = d !! k.
Proof.
  intros Hu Hk. rewrite lookup_union, (Hu k Hk).
  destruct (d !! k); reflexivity.
Qed.

(** Unknown keys of a team object are ignored. *)
Lemma TeamInfo_validate_extend pre extra (v : json) :
  unknown team_fields extra ->
  ok_to (TeamInfo_validate pre v) (TeamInfo_validate pre (extend_team extra v)).
Proof.
  intros Hu. destruct v as [| | | | |t]; simpl; try apply ok_to_refl.
  repeat apply ok_to_vap; try apply ok_to_refl;
    apply ok_to_required, (lookup_union_unknown team_fields); trivial;
    in_fields.
Qed.

Lemma unknown_singleton fields k (v : json) :
  k ∉ fields -> unknown fields {[k := v]}.
Proof.
  intros Hn k' Hk'. apply lookup_singleton_ne. intros ->. contradiction.
Qed.

Lemma lookup_add_unknown_fields extra eh ev (r : gmap string json) name :
  unknown game_fields extra -> name ∈ game_fields ->
  name ≠ "home_team" -> name ≠ "visitor_team" ->
  add_unknown_fields extra eh ev r !! name = r !! name.
Proof.
  intros Hu Hin Hh Hv. unfold add_unknown_fields.
  rewrite !lookup_alter_ne by congruence.
  apply (lookup_union_unknown game_fields); trivial.
Qed.

Lemma nested_add_unknown_fields extra eh ev (r : gmap string json) :
  unknown game_fields extra ->
  unknown team_fields eh -> unknown team_fields ev ->
  ok_to (nested r "home_team")
        (nested (add_unknown_fields extra eh ev r) "home_team")
  /\ ok_to (nested r "visitor_team")
           (nested (add_unknown_fields extra eh ev r) "visitor_team").
Proof.
  intros Hu Hh Hv. unfold nested, add_unknown_fields. split.
  - rewrite lookup_alter_eq, lookup_alter_ne by discriminate.
    rewrite (lookup_union_unknown game_fields) by (trivial; in_fields).
    destruct (r !! "home_team") as [v|]; simpl; [|intros a; discriminate].
    apply TeamInfo_validate_extend, Hh.
  - rewrite lookup_alter_ne by discriminate. rewrite lookup_alter_eq.
    rewrite (lookup_union_unknown game_fields) by (trivial; in_fields).
    destruct (r !! "visitor_team") as [v|]; simpl; [|intros a; discriminate].
    apply TeamInfo_validate_extend, Hv.
Qed.

(** The field checks read the record through its declared keys only. *)
Lemma Game_fields_validate_agree (d d' : gmap string json) :
  (forall name, name ∈ game_fields ->
     name ≠ "home_team" -> name ≠ "visitor_team" -> d' !! name = d !! name) ->
  ok_to (nested d "home_team") (nested d' "home_team") ->
  ok_to (nested d "visitor_team") (nested d' "visitor_team") ->
  ok_to (Game_fields_validate d) (Game_fields_validate d').
Proof.
  intros L Nh Nv. unfold Game_fields_validate.
  repeat (apply ok_to_vap;
          [| first [ exact Nh | exact Nv
                   | apply ok_to_required, L; [in_fields|discriminate..]
                   | apply ok_to_optional, L; [in_fields|discriminate..] ]]).
  apply ok_to_refl.
Qed.

Lemma Game_fields_validate_add_unknown extra eh ev (r : gmap string json) :
  unknown game_fields extra ->
  unknown team_fields eh -> unknown team_fields ev ->
  ok_to (Game_fields_validate r)
        (Game_fields_validate (add_unknown_fields extra eh ev r)).
Proof.
  intros Hu Hh Hv.
  destruct (nested_add_unknown_fields extra eh ev r Hu Hh Hv) as [Nh Nv].
  apply Game_fields_validate_agree; trivial.
  intros name Hin Hnh Hnv. apply lookup_add_unknown_fields; trivial.
Qed.

(** The "after" validator does not look at the raw input when it
    accepts. *)
Lemma check_team_different_ok v v' (g g' : Game) :
  check_team_different v g = VOk g' -> check_team_different v' g = VOk g'.
Proof.
  unfold check_team_different.
  destruct (t_id (home_team g) =? t_id (visitor_team g)); [discriminate|trivial].
Qed.

Lemma check_team_different_self v (g g' : Game) :
  check_team_different v g = VOk g' ->
  g' = g /\ t_id (home_team g) ≠ t_id (visitor_team g).
Proof.
  unfold check_team_different.
  destruct (Z.eqb_spec (t_id (home_team g)) (t_id (visitor_team g)));
    [discriminate|]. intros [= <-]. auto.
Qed.

(** Only dictionaries validate, and a validated [Game] is the result of
    the field checks. *)
Lemma model_validate_ok_inv (v : json) (g : Game) :
  model_validate v = VOk g ->
  exists d, v = JObj d /\ Game_fields_validate d = VOk g
            /\ t_id (home_team g) ≠ t_id (visitor_team g).
Proof.
  destruct v as [| | | | |d]; unfold model_validate; try discriminate.
  destruct (Game_fields_validate d) as [g0|] eqn:E; [|discriminate].
  intros Hc. apply check_team_different_self in Hc as [-> Hne]. eauto.
Qed.

Ltac vap_inv H :=
  repeat match type of H with
         | _ <*> _ = VOk _ =>
             let E := fresh "F" in
             apply vap_ok_inv in H as (? & ? & H & E & ->)
         end.

(** The [id] of a validated [Game] is the integer its ["id"] field was
    validated as. *)
Lemma Game_fields_validate_id (d : gmap string json) (g : Game) :
  Game_fields_validate d = VOk g ->
  required [] d "id" int_field = VOk (id g).
Proof.
  unfold Game_fields_validate. intros E. vap_inv E.
  injection E as <-. simpl. assumption.
Qed.

Lemma required_int_lookup (d : gmap string json) name (n m : Z) :
  required [] d name int_field = VOk m -> d !! name = Some (JInt n) -> m = n.
Proof.
  unfold required. intros E L. rewrite L in E. simpl in E. congruence.
Qed.

End Facts.
End SchemaFacts.

(* ===================================================================== *)
(** * Properties of the validation script                                 *)
(* ===================================================================== *)

Module ValidateFacts.
Import Schema Run SchemaFacts Validate.

Section Facts.
Context `{Pydantic}.

(** What [flatten] returns on the line written for a validated game. *)
Lemma flatten_model_dump (g : Game) :
  flatten (model_dump g)
  = Ok {| game_id := JInt (id g);
          date := JStr (date_dump (Schema.date g));
          season := JInt (Schema.season g);
          status := JStr (Schema.status g);
          periode := JInt (period g);
          postseason := JBool (Schema.postseason g);
          home_team_id := JInt (t_id (home_team g));
          home_team_full_name := JStr (t_full_name (home_team g));
          home_team_score := JInt (Schema.home_team_score g);
          visitor_team_id := JInt (t_id (visitor_team g));
          visitor_team_full_name := JStr (t_full_name (visitor_team g));
          visitor_team_score := JInt (Schema.visitor_team_score g) |}.
Proof. destruct g as [? ? ? ? ? ? ? ? ? ? ? ? ? ? ? ? ? ? ? ? ? ? ? ? ? ? ? ? [] []]. vm_compute. reflexivity. Qed.

(** *** One record at a time *)

Lemma count_type_app t (log : list (Z * ErrorRecord)) year er :
  count_type t (log ++ [(year, er)])
  = count_type t log + (if decide (er_type er = t) then 1 else 0).
Proof.
  unfold count_type. rewrite filter_app, length_app, Nat2Z.inj_add.
  f_equal. rewrite filter_cons, filter_nil. simpl.
  destruct (decide (er_type er = t)); reflexivity.
Qed.

Lemma count_type_nonneg t log : 0 <= count_type t log.
Proof. unfold count_type. lia. Qed.

(** A value that is not a dictionary stops the run: the error handler
    asks it for its ["id"], after it has incremented a counter. *)
Lemma validate_game_not_object year fs c (game : json) :
  (forall d, game ≠ JObj d) ->
  validate_game year fs c game
  = (fs,
     (classify (ValidationError_str "Game"
                  [mk_error [] (model_type "Game") game]) c).1,
     Raise AttributeError).
Proof.
  intros Hn. unfold validate_game.
  destruct game; try (exfalso; eapply Hn; reflexivity);
    unfold model_validate; destruct (classify _ c); reflexivity.
Qed.

(** On a dictionary the body of the loop never raises: the record is
    written to the validated file, or one error line is logged. *)
Lemma validate_game_object year fs c (d : gmap string json) :
  (exists g, model_validate (JObj d) = VOk g
             /\ validate_game year fs c (JObj d)
                = (append_validated year (JObj (model_dump g)) fs, c, Ok tt))
  \/ (exists es er c',
        model_validate (JObj d) = VErr es
        /\ validate_game year fs c (JObj d)
           = (append_error year er fs, c', Ok tt)
        /\ classify (ValidationError_str "Game" es) c = (c', er_type er)
        /\ er_game_id_hint er = Py.get d "id"
        /\ er_season er = Py.get d "season").
Proof.
  unfold validate_game.
  destruct (model_validate (JObj d)) as [g|es]; [left; eauto|right].
  destruct (classify _ c) as [c' t] eqn:K.
  eexists es, _, c'. split; [reflexivity|]. split; [reflexivity|].
  simpl. auto.
Qed.

(** The effect of one completed record on the counters and on the
    error log: either nothing is logged and the counters are unchanged,
    or one line is appended and the counter of its type grows by one. *)
Lemma step_appends x y :
  step x y ->
  exists new, errors y.1 = errors x.1 ++ new
    /\ invalid_schema y.2
       = invalid_schema x.2 + count_type "invalid_schema" new
    /\ same_team y.2 = same_team x.2 + count_type "same_team" new.
Proof.
  destruct x as [fs c], y as [fs' c']. intros (year & game & E).
  simpl in *. destruct game as [| | | | |d];
    try (rewrite validate_game_not_object in E by discriminate;
         discriminate).
  destruct (validate_game_object year fs c d)
    as [(g & _ & E') | (es & er & c2 & _ & E' & K & _)];
    rewrite E' in E; injection E as <- <-.
  - exists []. rewrite app_nil_r. simpl. split; [reflexivity|].
    unfold count_type. simpl. lia.
  - exists [(year, er)]. split; [reflexivity|].
    change [(year, er)] with ([] ++ [(year, er)]).
    rewrite !count_type_app. unfold classify in K.
    destruct (Py.contains same_team_marker _); injection K as <- <-; simpl;
      unfold count_type; simpl; lia.
Qed.

Lemma steps_appended x y :
  steps x y ->
  exists new, errors y.1 = errors x.1 ++ new
    /\ invalid_schema y.2
       = invalid_schema x.2 + count_type "invalid_schema" new
    /\ same_team y.2 = same_team x.2 + count_type "same_team" new.
Proof.
  intros Hs. induction Hs as [x | x y z Hxy _ (new2 & E2 & I2 & S2)].
  - exists []. rewrite app_nil_r. unfold count_type. simpl. split; [|lia].
    reflexivity.
  - destruct (step_appends _ _ Hxy) as (new1 & E1 & I1 & S1).
    exists (new1 ++ new2). rewrite E2, E1, app_assoc.
    split; [reflexivity|]. unfold count_type in *.
    rewrite !filter_app, !length_app. lia.
Qed.

(** The loops of the script go from one such point to the next. *)
Lemma validate_games_steps year games fs c fs' c' :
  validate_games year fs c games = (fs', c', Ok tt) -> steps (fs, c) (fs', c').
Proof.
  revert fs c. induction games as [|game rest IH]; intros fs c; simpl.
  - intros [= <- <-]. apply rtc_refl.
  - destruct (validate_game year fs c game) as [[fs1 c1] [[]|e]] eqn:E;
      [|discriminate].
    intros Hr. eapply rtc_l; [|apply IH, Hr]. exists year, game. exact E.
Qed.


Lemma validate_files_steps years fs c fs' c' :
  validate_files years fs c = (fs', c', Ok tt) -> steps (fs, c) (fs', c').
Proof.
  revert fs c. induction years as [|year rest IH]; intros fs c; simpl.
  - intros [= <- <-]. apply rtc_refl.
  - destruct (validate_file year fs c) as [[fs1 c1] [[]|e]] eqn:E;
      [|discriminate].
    intros Hr. eapply rtc_trans; [|apply IH, Hr].
    unfold validate_file in E. destruct (raw fs !! year); [|discriminate].
    eapply validate_games_steps, E.
Qed.

(** Between two records of a validation run started with the counters
    at zero, each counter is the number of lines of its type appended
    to the error logs since the start, and the counters never decrease
    from one such point to a later one. *)
Lemma counters_between_records (fs0 fs fs' : Fs) (c c' : Counters) :
  steps (fs0, counters) (fs, c) ->
  steps (fs, c) (fs', c') ->
  (invalid_schema c <= invalid_schema c' /\ same_team c <= same_team c')
  /\ exists new,
       errors fs = errors fs0 ++ new
       /\ invalid_schema c = count_type "invalid_schema" new
       /\ same_team c = count_type "same_team" new.
Proof.
  intros H0 H1.
  apply steps_appended in H0 as (new & E & I & S).
  apply steps_appended in H1 as (new' & _ & I' & S').
  simpl in *. split.
  - pose proof (count_type_nonneg "invalid_schema" new').
    pose proof (count_type_nonneg "same_team" new'). lia.
  - exists new. auto.
Qed.

(** *** The second loop *)

Section Tables.
Context `{Pandas}.

Lemma clean_year_report c year fs fs' r :
  clean_year c year fs = (fs', Ok (Some r)) -> error_counts r = c.
Proof.
  unfold clean_year. destruct (validated fs !! year); [|discriminate].
  destruct (flatten_lines _); [|discriminate].
  destruct (to_parquet _); [|discriminate].
  intros [= _ <-]. reflexivity.
Qed.

Lemma clean_years_written c years fs log y r :
  (y, r) ∈ written (clean_years c years fs log) ->
  (y, r) ∈ log \/ error_counts r = c.
Proof.
  revert fs log. induction years as [|year rest IH]; intros fs log; simpl.
  - auto.
  - destruct (clean_year c year fs) as [fs1 [[r1|]|e]] eqn:E; simpl.
    + intros Hin. apply IH in Hin as [Hin|Hin]; auto.
      apply elem_of_app in Hin as [Hin|Hin]; auto.
      apply list_elem_of_singleton in Hin as [= -> ->].
      right. eapply clean_year_report, E.
    + apply IH.
    + auto.
Qed.

End Tables.

End Facts.
End ValidateFacts.

(* ===================================================================== *)
(** * Properties of the ingestion script                                  *)
(* ===================================================================== *)

Module IngestFacts.
Import Ingest Run.

Lemma requests_app t1 t2 : requests (t1 ++ t2) = (requests t1 + requests t2)%nat.
Proof. unfold requests. rewrite List.filter_app, length_app. reflexivity. Qed.

(** *** Answers of the documented shape *)

Lemma page_items_of_payload (p : Api.Page) :
  page_items_of (Api.payload p) = Ok (JArr (Api.data p)).
Proof. reflexivity. Qed.

Lemma next_cursor_of_payload (p : Api.Page) :
  next_cursor_of (Api.payload p) = Ok (Api.next_cursor p).
Proof. reflexivity. Qed.

(** What the script reads of such an answer: the error of its status,
    or its cursor and its items. *)
Lemma read_first_page_response (p : Api.Page) :
  read_first_page (Api.response p)
  = if (400 <=? Api.status p) && (Api.status p <? 600)
    then Raise (HTTPError (Api.status p))
    else Ok (Api.next_cursor p, Api.data p).
Proof.
  unfold read_first_page, raise_for_status, Api.response.
  cbn [status_code body json_of].
  destruct ((400 <=? Api.status p) && (Api.status p <? 600)); reflexivity.
Qed.

Lemma read_page_response (p : Api.Page) :
  read_page (Api.response p)
  = if (400 <=? Api.status p) && (Api.status p <? 600)
    then Raise (HTTPError (Api.status p))
    else match Api.data p with
         | [] => Ok None
         | _ => Ok (Some (Api.next_cursor p, Api.data p))
         end.
Proof.
  unfold read_page, raise_for_status, Api.response.
  cbn [status_code body json_of].
  destruct ((400 <=? Api.status p) && (Api.status p <? 600));
    [reflexivity|].
  cbn [mbind result_bind]. rewrite page_items_of_payload.
  cbn [mbind result_bind Py.truthy].
  destruct (Api.data p); [reflexivity|].
  rewrite next_cursor_of_payload. reflexivity.
Qed.

Section Facts.
Variable max_pages : Z.
Variable remote : Remote.
Variable years : Z.

(** The fuel given to the loop is exactly the number of iterations the
    condition [page < MAX_PAGES] allows: more fuel changes nothing. *)
Lemma pagination_fuel fuel page cursor all_games sent trace :
  (Z.to_nat (max_pages - page) <= fuel)%nat ->
  pagination max_pages remote years fuel page cursor all_games sent trace
  = pagination max_pages remote years (Z.to_nat (max_pages - page))
               page cursor all_games sent trace.
Proof.
  revert page cursor all_games sent trace.
  induction fuel as [|fuel IH]; intros page cursor all_games sent trace Hle.
  - replace (Z.to_nat (max_pages - page)) with 0%nat by lia. reflexivity.
  - destruct (Z.to_nat (max_pages - page)) as [|m] eqn:E.
    + simpl. replace (page <? max_pages) with false
        by (symmetry; apply Z.ltb_ge; lia).
      rewrite andb_false_r. reflexivity.
    + assert (Em : m = Z.to_nat (max_pages - (page + 1))) by lia.
      simpl. destruct (Py.truthy cursor && (page <? max_pages)); [|reflexivity].
      destruct (remote sent _) as [resp|e]; [|reflexivity].
      destruct (status_code _ =? 429).
      * rewrite IH by lia. rewrite Em. reflexivity.
      * destruct (read_page resp) as [[[cursor' items]|]|e]; try reflexivity.
        rewrite IH by lia. rewrite Em. reflexivity.
Qed.

End Facts.

Section Served.
Variable max_pages : Z.
Variable source : Api.Source.
Variable years : Z.

(** One iteration of the loop on a source whose answers have the
    documented shape. *)
Lemma pagination_serve fuel page cursor all_games sent trace :
  pagination max_pages (Api.serve source) years (S fuel) page cursor
             all_games sent trace
  = if Py.truthy cursor && (page <? max_pages) then
      let params :=
        {| per_page := 100; seasons := years; cursor := Some cursor |} in
      let p := source sent params in
      let trace := trace ++ [Get params] in
      if Api.status p =? 429 then
        pagination max_pages (Api.serve source) years fuel (page + 1) cursor
                   all_games (S sent) (trace ++ [Sleep 12])
      else if (400 <=? Api.status p) && (Api.status p <? 600) then
        (trace, Raise (HTTPError (Api.status p)))
      else
        match Api.data p with
        | [] => (trace, Ok (page + 1, all_games))
        | _ =>
            pagination max_pages (Api.serve source) years fuel (page + 1)
                       (Api.next_cursor p) (all_games ++ Api.data p)
                       (S sent) (trace ++ [Sleep 12])
        end
    else (trace, Ok (page, all_games)).
Proof.
  cbn [pagination]. unfold Api.serve at 1 2.
  destruct (Py.truthy cursor && (page <? max_pages)); [|reflexivity].
  cbv zeta. cbn [Api.response status_code].
  destruct (Api.status _ =? 429); [reflexivity|].
  rewrite read_page_response.
  destruct ((400 <=? Api.status _) && (Api.status _ <? 600)); [reflexivity|].
  destruct (Api.data _); reflexivity.
Qed.

(** The first request on such a source. *)
Lemma fetch_season_serve :
  fetch_season max_pages (Api.serve source) years
  = let params := {| per_page := 100; seasons := years; cursor := None |} in
    let '(p, sent, trace) :=
      if Api.status (source 0%nat params) =? 429
      then (source 1%nat params, 2%nat, [Get params; Sleep 12; Get params])
      else (source 0%nat params, 1%nat, [Get params]) in
    if (400 <=? Api.status p) && (Api.status p <? 600) then
      (trace, Raise (HTTPError (Api.status p)))
    else
      match pagination max_pages (Api.serve source) years
                       (Z.to_nat (max_pages - 1)) 1 (Api.next_cursor p)
                       (Api.data p) sent trace with
      | (trace, Ok (_, all_games)) => (trace, Ok all_games)
      | (trace, Raise e) => (trace, Raise e)
      end.
Proof.
  unfold fetch_season. unfold Api.serve at 1 2. cbv zeta.
  cbn [Api.response status_code].
  destruct (Api.status _ =? 429); cbn [mbind result_bind];
    rewrite read_first_page_response;
    destruct ((400 <=? Api.status _) && (Api.status _ <? 600)); reflexivity.
Qed.

(** On a source that always returns a page and a cursor, the loop runs
    until [page] reaches the cap, one request per iteration, and ends
    without an exception. *)
Lemma pagination_cap fuel page cursor all_games sent trace :
  always_pages source ->
  Py.truthy cursor = true ->
  Z.of_nat fuel = max_pages - page ->
  exists trace' all_games',
    pagination max_pages (Api.serve source) years fuel page cursor all_games
               sent trace
    = (trace', Ok (max_pages, all_games'))
    /\ requests trace' = (requests trace + fuel)%nat.
Proof.
  intros Hr. revert page cursor all_games sent trace.
  induction fuel as [|fuel IH]; intros page cursor all_games sent trace Hc Hf.
  - simpl. replace page with max_pages by lia. eauto.
  - rewrite pagination_serve, Hc. replace (page <? max_pages) with true
      by (symmetry; apply Z.ltb_lt; lia).
    cbv beta iota zeta. cbn [andb].
    destruct (Hr sent {| per_page := 100; seasons := years;
                         cursor := Some cursor |}) as (Hs & Hd & Hn).
    rewrite Hs. change (200 =? 429) with false.
    change ((400 <=? 200) && (200 <? 600)) with false. cbv beta iota.
    destruct (Api.data _) as [|item items] eqn:Ed; [congruence|].
    edestruct IH as (trace' & all' & E & R); [exact Hn| |rewrite E].
    + lia.
    + do 2 eexists. split; [reflexivity|].
      rewrite R, !requests_app. unfold requests. simpl. lia.
Qed.

End Served.
End IngestFacts.

(* ===================================================================== *)
(** * The properties of the pipeline                                      *)
(* ===================================================================== *)

(** ** Validation of one record *)

(** The text raised by [check_team_different] does not contain the text
    the error handler of [validate.py] looks for: one says "team", the
    other "teams". *)
Lemma marker_not_in_raised_message :
  Py.contains Validate.same_team_marker
    (Schema.err_msg (Schema.value_error Schema.check_team_different_message))
  = false.
Proof. vm_compute. reflexivity. Qed.

(** A record whose fields are valid and whose two teams have the same
    id is rejected, with the single error of [check_team_different]. *)
Lemma same_team_rejected `{Schema.Pydantic} (d : gmap string json)
    (g : Schema.Game) :
  Schema.Game_fields_validate d = Schema.VOk g ->
  Schema.t_id (Schema.home_team g) = Schema.t_id (Schema.visitor_team g) ->
  Schema.model_validate (JObj d)
  = Schema.VErr
      [Schema.mk_error []
         (Schema.value_error Schema.check_team_different_message) (JObj d)].
Proof.
  intros E Hid. unfold Schema.model_validate. rewrite E.
  unfold Schema.check_team_different. rewrite Hid, Z.eqb_refl. reflexivity.
Qed.

(** C1, on the record [Sample.same_team_game] (valid but for its two
    teams, both with id 2): the record is rejected, yet it is counted and
    logged as [invalid_schema]; the [same_team] counter stays at 0.
    (The input quoted in the message is cut to 25 and 24 characters
    around an ellipsis: it cannot hold the 42 characters looked for.) *)
Theorem same_team_record_logged_as_invalid_schema :
  let out := Validate.validate_game 2021 Sample.no_files Validate.counters
               Sample.same_team_game in
  out.2 = Ok tt
  /\ out.1.2 = {| Validate.invalid_schema := 1; Validate.same_team := 0 |}
  /\ map (fun l => (l.1, Validate.er_type l.2, Validate.er_game_id_hint l.2))
         (Validate.errors out.1.1)
     = [(2021, "invalid_schema", JInt 18)].
Proof. vm_compute. repeat split; reflexivity. Qed.

(** C4, on the list made of the number 42 followed by a valid record:
    the run stops with [AttributeError] at the first element, once the
    handler has incremented the [invalid_schema] counter; no error line
    is written and the valid record is never reached. *)
Theorem non_object_record_aborts_validation :
  Validate.validate_games 2021 Sample.no_files Validate.counters
    [JInt 42; Sample.valid_game]
  = (Sample.no_files,
     {| Validate.invalid_schema := 1; Validate.same_team := 0 |},
     Raise AttributeError).
Proof. vm_compute. reflexivity. Qed.

(** C7, on the list made of an empty record followed by the number 42:
    the empty record is counted and logged; the number 42 is counted,
    then the handler raises [AttributeError] before it writes the error
    line.  The run ends with the [invalid_schema] counter at 2 and one
    line in the error log. *)
Theorem counter_ahead_of_error_log :
  let out := Validate.validate_games 2021 Sample.no_files Validate.counters
               [JObj ∅; JInt 42] in
  out.2 = Raise AttributeError
  /\ Validate.invalid_schema out.1.2 = 2
  /\ Validate.same_team out.1.2 = 0
  /\ Run.count_type "invalid_schema" (Validate.errors out.1.1) = 1
  /\ Run.count_type "same_team" (Validate.errors out.1.1) = 0.
Proof. vm_compute. repeat split; reflexivity. Qed.

Section Validation.
Context `{Schema.Pydantic} `{Validate.Pandas}.
Import Run.

(** When every record of the list is a dictionary the loop does not
    raise. *)
Lemma validate_games_objects year games fs c :
  Forall is_object games ->
  exists fs' c', Validate.validate_games year fs c games = (fs', c', Ok tt).
Proof.
  intros Hall. revert fs c.
  induction Hall as [|game rest Hg _ IH]; intros fs c; simpl; [eauto|].
  destruct game as [| | | | |d]; try contradiction.
  destruct (ValidateFacts.validate_game_object year fs c d)
    as [(g & _ & E) | (es & er & c2 & _ & E & _)]; rewrite E; apply IH.
Qed.

(** C8: a record that validates still validates, to the same [Game],
    when keys that are not fields of the model are added to it and to
    its two team objects; the [Game] holds the declared fields only. *)
Theorem unknown_fields_ignored (extra extra_home extra_visitor : gmap string json)
    (r : gmap string json) (g : Schema.Game) :
  unknown Schema.game_fields extra ->
  unknown Schema.team_fields extra_home ->
  unknown Schema.team_fields extra_visitor ->
  Schema.model_validate (JObj r) = Schema.VOk g ->
  Schema.model_validate
    (JObj (add_unknown_fields extra extra_home extra_visitor r))
  = Schema.VOk g.
Proof.
  intros Hu Hh Hv Hr.
  apply SchemaFacts.model_validate_ok_inv in Hr as (d & [= <-] & Hf & Hne).
  unfold Schema.model_validate.
  rewrite (SchemaFacts.Game_fields_validate_add_unknown _ _ _ _ Hu Hh Hv _ Hf).
  unfold Schema.check_team_different.
  destruct (Z.eqb_spec (Schema.t_id (Schema.home_team g))
                       (Schema.t_id (Schema.visitor_team g)));
    [contradiction|reflexivity].
Qed.

(** C5, as amended: the row flattened from a validated record holds, as
    [game_id], the integer the record's id was validated as; this is the
    id of the input record whenever that id is a JSON integer. *)
Theorem flatten_keeps_validated_id (r : gmap string json) (g : Schema.Game) :
  Schema.model_validate (JObj r) = Schema.VOk g ->
  exists row,
    Validate.flatten (Schema.model_dump g) = Ok row
    /\ Validate.game_id row = JInt (Schema.id g)
    /\ (forall n, r !! "id" = Some (JInt n) ->
          Validate.game_id row = Py.get r "id").
Proof.
  intros Hr.
  apply SchemaFacts.model_validate_ok_inv in Hr as (d & [= <-] & Hf & _).
  eexists. split; [apply ValidateFacts.flatten_model_dump|].
  split; [reflexivity|]. intros n Hn. simpl.
  apply SchemaFacts.Game_fields_validate_id in Hf.
  rewrite (SchemaFacts.required_int_lookup _ _ _ _ Hf Hn).
  unfold Py.get. rewrite Hn. reflexivity.
Qed.

(** C9: every report written by a run carries, as [error_counts], the
    counters the validation loop ended with; hence all the reports of a
    run carry the same counts. *)
Theorem reports_carry_final_counters (fs : Validate.Fs) (y : Z)
    (r : Validate.QualityReport) :
  (y, r) ∈ Validate.written (Validate.main fs) ->
  (exists fs1,
     Validate.validate_files Validate.files fs Validate.counters
     = (fs1, Validate.error_counts r, Ok tt))
  /\ (forall y' r', (y', r') ∈ Validate.written (Validate.main fs) ->
        Validate.error_counts r' = Validate.error_counts r).
Proof.
  unfold Validate.main.
  destruct (Validate.validate_files Validate.files fs Validate.counters)
    as [[fs1 c] [[]|e]] eqn:E; cbv beta iota.
  - intros Hin.
    apply ValidateFacts.clean_years_written in Hin as [Hin|Hc];
      [by apply elem_of_nil in Hin|].
    split; [exists fs1; rewrite Hc; reflexivity|].
    intros y' r' Hin'.
    apply ValidateFacts.clean_years_written in Hin' as [Hin'|Hc'];
      [by apply elem_of_nil in Hin'|]. congruence.
  - simpl. intros Hin. by apply elem_of_nil in Hin.
Qed.

End Validation.

(** C10, as amended: [flatten] returns a row, with its twelve columns,
    on every dictionary whose ["home_team"] and ["visitor_team"] values
    are dictionaries when they are present; the columns of an absent
    team and of an absent scalar field are [None]. *)
Theorem flatten_total_when_teams_are_dicts (rec : gmap string json) :
  Run.dict_or_absent (rec !! "home_team") ->
  Run.dict_or_absent (rec !! "visitor_team") ->
  exists row,
    Validate.flatten rec = Ok row
    /\ Validate.game_id row = Py.get rec "id"
    /\ Validate.date row = Py.get rec "date"
    /\ Validate.season row = Py.get rec "season"
    /\ Validate.status row = Py.get rec "status"
    /\ Validate.periode row = Py.get rec "period"
    /\ Validate.postseason row = Py.get rec "postseason"
    /\ Validate.home_team_score row = Py.get rec "home_team_score"
    /\ Validate.visitor_team_score row = Py.get rec "visitor_team_score"
    /\ (forall k, rec !! k = None -> Py.get rec k = JNull)
    /\ (rec !! "home_team" = None ->
          Validate.home_team_id row = JNull
          /\ Validate.home_team_full_name row = JNull)
    /\ (rec !! "visitor_team" = None ->
          Validate.visitor_team_id row = JNull
          /\ Validate.visitor_team_full_name row = JNull).
Proof.
  intros Hh Hv. unfold Validate.flatten, Py.get_or_empty.
  assert (Habs : forall k, rec !! k = None -> Py.get rec k = JNull)
    by (intros k E; unfold Py.get; rewrite E; reflexivity).
  destruct (rec !! "home_team") as [[| | | | |h]|];
    destruct (rec !! "visitor_team") as [[| | | | |v]|];
    simpl in Hh, Hv; try contradiction;
    (eexists; split; [reflexivity|]; simpl;
     repeat split; trivial; discriminate).
Qed.

(** ** Fetching a season *)

(** The first request of a season is retried once: when the retry is
    answered 429 as well, the error surfaces after exactly two requests
    and one pause. *)
Lemma first_request_retried_once (max_pages : Z) (remote : Api.Source)
    (years : Z) :
  Api.status (remote 0%nat (Sample.first_request years)) = 429 ->
  Api.status (remote 1%nat (Sample.first_request years)) = 429 ->
  Ingest.fetch_season max_pages (Api.serve remote) years
  = ([Ingest.Get (Sample.first_request years); Ingest.Sleep 12;
      Ingest.Get (Sample.first_request years)],
     Raise (HTTPError 429)).
Proof.
  intros H0 H1. rewrite IngestFacts.fetch_season_serve.
  unfold Sample.first_request in *. cbv zeta.
  rewrite H0. change (429 =? 429) with true. cbv beta iota.
  rewrite H1. reflexivity.
Qed.

(** C2, on the source [Sample.rate_limiting_remote] (a first page with
    the cursor 7, then 429 to every request): the request for the
    second page is sent 59 times, each followed by a pause, and the
    fetch ends without an error, with the first page only. *)
Theorem rate_limited_page_retried_until_cap :
  Ingest.fetch_season Ingest.MAX_PAGES
    (Api.serve Sample.rate_limiting_remote) 2021
  = (Ingest.Get (Sample.first_request 2021)
       :: concat (replicate 59 [Ingest.Get (Sample.next_request 2021 (JInt 7));
                                Ingest.Sleep 12]),
     Ok [Sample.valid_game]).
Proof. vm_compute. reflexivity. Qed.

(** C6, as amended: for a page cap of at least 1, on a source that
    always returns a page of items with a cursor that is true for Python
    (not [None], and not 0, an empty string, [False] or an empty
    container either), the fetch sends exactly as many requests as the
    cap and ends normally. *)
Theorem page_cap_reached (max_pages : Z) (remote : Api.Source) (years : Z) :
  1 <= max_pages ->
  Run.always_pages remote ->
  exists trace all_games,
    Ingest.fetch_season max_pages (Api.serve remote) years
    = (trace, Ok all_games)
    /\ Ingest.requests trace = Z.to_nat max_pages.
Proof.
  intros Hm Hr. rewrite IngestFacts.fetch_season_serve. cbv zeta.
  destruct (Hr 0%nat {| Ingest.per_page := 100; Ingest.seasons := years;
                        Ingest.cursor := None |}) as (Hs & Hd & Hn).
  rewrite Hs. change (200 =? 429) with false. cbv beta iota. rewrite Hs.
  change ((400 <=? 200) && (200 <? 600)) with false. cbv beta iota.
  edestruct (IngestFacts.pagination_cap max_pages remote years
               (Z.to_nat (max_pages - 1)) 1) as (trace' & all' & E & R);
    [exact Hr|exact Hn|lia|].
  rewrite E. do 2 eexists. split; [reflexivity|].
  rewrite R. unfold Ingest.requests. simpl. lia.
Qed.

(** ** Indicators *)

(** C3, as amended: on the two games of the example, each team has one
    win; away, Team A concedes 105 points on average and Team B 110. *)
Theorem two_games_indicators :
  Indicators.loc (Indicators.wins Sample.two_games) "Team A" = Some (Some 1)
  /\ Indicators.loc (Indicators.wins Sample.two_games) "Team B" = Some (Some 1)
  /\ Run.has_value (Indicators.conceded_away Sample.two_games) "Team A" 105
  /\ Run.has_value (Indicators.conceded_away Sample.two_games) "Team B" 110.
Proof. vm_compute. repeat split; reflexivity. Qed.

(* ===================================================================== *)
(** * Instances and counterexamples                                       *)
(* ===================================================================== *)

Ltac not_a_field := apply (bool_decide_unpack _); vm_compute; exact I.

(** [unknown_fields_ignored] on [Sample.valid_game], to which the keys
    ["odds"], ["mascot"] (home team) and ["arena"] (visitor team) are
    added. *)
Lemma unknown_fields_ignored_witness :
  exists g,
    Schema.model_validate Sample.valid_game = Schema.VOk g
    /\ Schema.model_validate
         (JObj (Run.add_unknown_fields
                  {["odds" := JInt 3]} {["mascot" := JStr "Lucky"]}
                  {["arena" := JNull]}
                  (Sample.game_record (JInt 17) Sample.celtics Sample.nets)))
       = Schema.VOk g.
Proof.
  eexists. split; [reflexivity|].
  apply unknown_fields_ignored;
    [apply SchemaFacts.unknown_singleton; not_a_field ..|reflexivity].
Defined.

(** [flatten_keeps_validated_id] on [Sample.valid_game], whose id is the
    integer 17. *)
Lemma flatten_keeps_validated_id_witness :
  exists g,
    Schema.model_validate Sample.valid_game = Schema.VOk g
    /\ exists row,
         Validate.flatten (Schema.model_dump g) = Ok row
         /\ Validate.game_id row = JInt (Schema.id g)
         /\ (forall n,
               Sample.game_record (JInt 17) Sample.celtics Sample.nets !! "id"
               = Some (JInt n) ->
               Validate.game_id row
               = Py.get (Sample.game_record (JInt 17) Sample.celtics
                           Sample.nets) "id").
Proof.
  eexists. split; [reflexivity|].
  apply (flatten_keeps_validated_id
           (Sample.game_record (JInt 17) Sample.celtics Sample.nets)).
  reflexivity.
Defined.

(** C5 as stated fails: the record [Sample.string_id_game], whose id is
    the string "7", is accepted, and its row has the integer 7 as
    [game_id]. *)
Lemma string_id_not_round_tripped :
  ~ (forall (r : gmap string json) (g : Schema.Game) (row : Validate.FlatRow),
       Schema.model_validate (JObj r) = Schema.VOk g ->
       Validate.flatten (Schema.model_dump g) = Ok row ->
       Validate.game_id row = Py.get r "id").
Proof.
  intros Hc.
  eassert (E : Schema.model_validate Sample.string_id_game = Schema.VOk _)
    by reflexivity.
  specialize (Hc _ _ _ E (ValidateFacts.flatten_model_dump _)).
  discriminate Hc.
Qed.

(** [reports_carry_final_counters] on the run over [Sample.five_files]:
    one report is written, for 2020. *)
Lemma reports_carry_final_counters_witness :
  exists r,
    (2020, r) ∈ Validate.written (Validate.main Sample.five_files)
    /\ Validate.error_counts r
       = {| Validate.invalid_schema := 1; Validate.same_team := 0 |}
    /\ (exists fs1,
          Validate.validate_files Validate.files Sample.five_files
            Validate.counters
          = (fs1, Validate.error_counts r, Ok tt)).
Proof.
  exists {| Validate.total_valid := 1;
            Validate.error_counts :=
              {| Validate.invalid_schema := 1; Validate.same_team := 0 |} |}.
  assert (Hin : (2020, {| Validate.total_valid := 1;
                          Validate.error_counts :=
                            {| Validate.invalid_schema := 1;
                               Validate.same_team := 0 |} |})
                ∈ Validate.written (Validate.main Sample.five_files))
    by (vm_compute; constructor).
  split; [exact Hin|]. split; [reflexivity|].
  exact (proj1 (reports_carry_final_counters Sample.five_files 2020 _ Hin)).
Defined.

(** [flatten_total_when_teams_are_dicts] on a dictionary with an id and
    an empty home team, and nothing else. *)
Lemma flatten_total_when_teams_are_dicts_witness :
  exists row,
    Validate.flatten {["id" := JInt 5; "home_team" := JObj ∅]} = Ok row
    /\ Validate.game_id row = JInt 5.
Proof.
  destruct (flatten_total_when_teams_are_dicts
              {["id" := JInt 5; "home_team" := JObj ∅]})
    as (row & E & Hid & _); [vm_compute; exact I ..|].
  exists row. split; [exact E|]. rewrite Hid. reflexivity.
Defined.

(** C10 as stated fails: on the dictionary [{"home_team": None}],
    [flatten] raises [AttributeError]. *)
Lemma flatten_raises_on_null_team :
  ~ (forall rec : gmap string json, exists row, Validate.flatten rec = Ok row).
Proof.
  intros Hc. destruct (Hc {["home_team" := JNull]}) as [row E].
  vm_compute in E. discriminate.
Qed.

(** [page_cap_reached] with a cap of 3 on [Sample.endless_remote]. *)
Lemma page_cap_reached_witness :
  exists trace all_games,
    Ingest.fetch_season 3 (Api.serve Sample.endless_remote) 2021
    = (trace, Ok all_games)
    /\ Ingest.requests trace = 3%nat.
Proof.
  apply (page_cap_reached 3 Sample.endless_remote 2021); [lia|].
  intros n req. simpl. repeat split; [discriminate|].
  destruct (Z.eqb_spec (Z.of_nat n + 1) 0); [lia|reflexivity].
Defined.

(** C6 as stated fails: [Sample.zero_cursor_remote] always returns a
    page of items with the cursor 0, which is not [None]; the fetch
    stops after one request. *)
Lemma zero_cursor_stops_after_first_page :
  ~ (forall (remote : Api.Source) (years : Z),
       Run.always_pages_nonnull remote ->
       exists trace all_games,
         Ingest.fetch_season Ingest.MAX_PAGES (Api.serve remote) years
         = (trace, Ok all_games)
         /\ Ingest.requests trace = Z.to_nat Ingest.MAX_PAGES).
Proof.
  intros Hc.
  destruct (Hc Sample.zero_cursor_remote 2021) as (trace & all_games & E & R).
  - intros n req. simpl. repeat split; discriminate.
  - vm_compute in E. injection E as <- <-. vm_compute in R. discriminate.
Qed.

(** C3 as stated fails: away, Team B concedes 110 points on average (the
    score of Team A at home), not 90. *)
Lemma two_games_team_B_concedes_110_away :
  ~ (Indicators.loc (Indicators.wins Sample.two_games) "Team A"
     = Some (Some 1)
     /\ Indicators.loc (Indicators.wins Sample.two_games) "Team B"
        = Some (Some 1)
     /\ Run.has_value (Indicators.conceded_away Sample.two_games) "Team A" 105
     /\ Run.has_value (Indicators.conceded_away Sample.two_games) "Team B" 90).
Proof. intros (_ & _ & _ & HB). vm_compute in HB. discriminate. Qed.

(* ===================================================================== *)
(** * Further properties of the schema                                    *)
(* ===================================================================== *)

Module SchemaMore.
Import Schema Run SchemaProps.

Lemma fails_with_l {A B} e (f : vres (A -> B)) (x : vres A) :
  fails_with e f -> fails_with e (f <*> x).
Proof.
  intros (es & -> & Hin). destruct x as [a|es']; unfold vap.
  - exists es. auto.
  - exists (es ++ es'). split; [reflexivity|]. apply elem_of_app. auto.
Qed.

Lemma fails_with_r {A B} e (f : vres (A -> B)) (x : vres A) :
  fails_with e x -> fails_with e (f <*> x).
Proof.
  intros (es & -> & Hin). destruct f as [f0|es']; unfold vap.
  - exists es. auto.
  - exists (es' ++ es). split; [reflexivity|]. apply elem_of_app. auto.
Qed.

Section Facts.
Context `{Pydantic}.

Lemma IntGE0_ok (v : json) (n : Z) : IntGE0 v = inr n -> 0 <= n.
Proof.
  unfold IntGE0. destruct (int_field v) as [e|m]; [discriminate|].
  destruct (Z.leb_spec 0 m); [|discriminate]. intros [= <-]. assumption.
Qed.

Lemma required_IntGE0_ok pre (d : gmap string json) name (n : Z) :
  required pre d name IntGE0 = VOk n -> 0 <= n.
Proof.
  unfold required. destruct (d !! name) as [v|]; [|discriminate].
  destruct (IntGE0 v) as [e|m] eqn:E; [discriminate|].
  intros [= <-]. eapply IntGE0_ok, E.
Qed.

Lemma optional_IntGE0_ok pre (d : gmap string json) name (o : option Z) :
  optional pre d name IntGE0 = VOk o -> nonneg_if_present o.
Proof.
  unfold optional, Optional. destruct (d !! name) as [v|].
  - destruct v; try (intros [= <-] k; discriminate);
      match goal with
      | |- context [IntGE0 ?v] =>
          destruct (IntGE0 v) as [e|m] eqn:E; [discriminate|];
          intros [= <-] k [= <-]; eapply IntGE0_ok, E
      end.
  - intros [= <-] k. discriminate.
Qed.

Ltac vap_inv H :=
  repeat match type of H with
         | _ <*> _ = VOk _ =>
             let E := fresh "F" in
             apply SchemaFacts.vap_ok_inv in H as (? & ? & H & E & ->)
         end.

Lemma Game_fields_validate_counts (d : gmap string json) (g : Game) :
  Game_fields_validate d = VOk g ->
  0 <= period g /\ 0 <= home_team_score g /\ 0 <= visitor_team_score g
  /\ Forall nonneg_if_present (optional_counts g).
Proof.
  unfold Game_fields_validate. intros E. vap_inv E. injection E as <-.
  unfold optional_counts. simpl.
  repeat match goal with
         | F : required _ _ _ IntGE0 = VOk _ |- _ =>
             apply required_IntGE0_ok in F
         | F : optional _ _ _ IntGE0 = VOk _ |- _ =>
             apply optional_IntGE0_ok in F
         end.
  repeat split; try assumption. repeat constructor; assumption.
Qed.

Lemma model_validate_counts (v : json) (g : Game) :
  model_validate v = VOk g ->
  t_id (home_team g) ≠ t_id (visitor_team g)
  /\ 0 <= period g /\ 0 <= home_team_score g /\ 0 <= visitor_team_score g
  /\ Forall nonneg_if_present (optional_counts g).
Proof.
  intros E.
  apply SchemaFacts.model_validate_ok_inv in E as (d & -> & Hf & Hne).
  split; [exact Hne|]. apply (Game_fields_validate_counts d), Hf.
Qed.

(** A game that comes out of validation has two teams with different
    ids, and no negative count: period, scores, quarter and overtime
    scores, timeouts. *)
Theorem validated_game_invariants (v : json) (g : Game) :
  model_validate v = VOk g ->
  t_id (home_team g) ≠ t_id (visitor_team g)
  /\ 0 <= period g /\ 0 <= home_team_score g /\ 0 <= visitor_team_score g
  /\ Forall nonneg_if_present (optional_counts g).
Proof. apply model_validate_counts. Qed.

(** *** Rejections *)

Lemma required_negative (d : gmap string json) name (n : Z) :
  d !! name = Some (JInt n) -> n < 0 ->
  fails_with (mk_error [name] greater_than_equal (JInt n))
             (required [] d name IntGE0).
Proof.
  intros L Hn. unfold required. rewrite L. unfold IntGE0, int_field.
  destruct (Z.leb_spec 0 n); [lia|].
  eexists. split; [reflexivity|]. apply list_elem_of_singleton. reflexivity.
Qed.

Lemma optional_negative (d : gmap string json) name (n : Z) :
  d !! name = Some (JInt n) -> n < 0 ->
  fails_with (mk_error [name] greater_than_equal (JInt n))
             (optional [] d name IntGE0).
Proof.
  intros L Hn. unfold optional. rewrite L. unfold Optional, IntGE0, int_field.
  destruct (Z.leb_spec 0 n); [lia|].
  eexists. split; [reflexivity|]. apply list_elem_of_singleton. reflexivity.
Qed.

Lemma required_missing {A} (d : gmap string json) name
    (ty : json -> lib_error + A) :
  d !! name = None ->
  fails_with (mk_error [name] missing (JObj d)) (required [] d name ty).
Proof.
  intros L. unfold required. rewrite L.
  eexists. split; [reflexivity|]. apply list_elem_of_singleton. reflexivity.
Qed.

Lemma nested_missing (d : gmap string json) name :
  d !! name = None ->
  fails_with (mk_error [name] missing (JObj d)) (nested d name).
Proof.
  intros L. unfold nested. rewrite L.
  eexists. split; [reflexivity|]. apply list_elem_of_singleton. reflexivity.
Qed.

Lemma model_validate_fails e (d : gmap string json) :
  fails_with e (Game_fields_validate d) ->
  fails_with e (model_validate (JObj d)).
Proof.
  intros (es & E & Hin). unfold model_validate. rewrite E. exists es. auto.
Qed.

(** Walk down the fields of [Game_fields_validate] to the one that
    fails. *)
Ltac find_field leaf :=
  unfold Game_fields_validate;
  repeat first [ apply fails_with_r; leaf | apply fails_with_l ].

(** A negative integer under a field declared [IntGE0] or
    [Optional[IntGE0]] makes validation fail, with an error line of type
    [greater_than_equal] located at that field. *)
Theorem negative_count_rejected (r : gmap string json) (k : string) (n : Z) :
  k ∈ counted_fields ->
  r !! k = Some (JInt n) ->
  n < 0 ->
  fails_with (mk_error [k] greater_than_equal (JInt n))
             (model_validate (JObj r)).
Proof.
  intros Hk L Hn. apply model_validate_fails. unfold counted_fields in Hk.
  repeat (apply elem_of_cons in Hk as [->|Hk]);
    [find_field ltac:(first [ apply required_negative
                            | apply optional_negative ]; assumption) ..|].
  by apply elem_of_nil in Hk.
Qed.

(** A record that lacks a field declared without a default is rejected,
    with an error line of type [missing] located at that field. *)
Theorem missing_field_rejected (r : gmap string json) (k : string) :
  k ∈ required_fields ->
  r !! k = None ->
  fails_with (mk_error [k] missing (JObj r)) (model_validate (JObj r)).
Proof.
  intros Hk L. apply model_validate_fails. unfold required_fields in Hk.
  repeat (apply elem_of_cons in Hk as [->|Hk]);
    [find_field ltac:(first [ apply required_missing
                            | apply nested_missing ]; assumption) ..|].
  by apply elem_of_nil in Hk.
Qed.

(** *** Reading back what was written *)

Lemma required_lookup {A} pre (d : gmap string json) name
    (ty : json -> lib_error + A) (v : json) (a : A) :
  d !! name = Some v -> ty v = inr a -> required pre d name ty = VOk a.
Proof. intros L T. unfold required. rewrite L, T. reflexivity. Qed.

Lemma optional_lookup {A} pre (d : gmap string json) name
    (ty : json -> lib_error + A) (v : json) (o : option A) :
  d !! name = Some v -> Optional ty v = inr o ->
  optional pre d name ty = VOk o.
Proof. intros L T. unfold optional. rewrite L, T. reflexivity. Qed.

Lemma IntGE0_nonneg (n : Z) : 0 <= n -> IntGE0 (JInt n) = inr n.
Proof.
  intros Hn. unfold IntGE0, int_field.
  destruct (Z.leb_spec 0 n); [reflexivity|lia].
Qed.

Lemma Optional_IntGE0_dump (o : option Z) :
  nonneg_if_present o -> Optional IntGE0 (dump_opt_int o) = inr o.
Proof.
  intros Ho. destruct o as [n|]; [|reflexivity].
  unfold Optional, dump_opt_int. rewrite IntGE0_nonneg by (apply Ho; reflexivity).
  reflexivity.
Qed.

Lemma Optional_bool_dump (o : option bool) :
  Optional bool_field (dump_opt_bool o) = inr o.
Proof. destruct o; reflexivity. Qed.

Lemma TeamInfo_validate_dump pre (t : TeamInfo) :
  TeamInfo_validate pre (TeamInfo_dump t) = VOk t.
Proof.
  destruct t. unfold TeamInfo_validate, TeamInfo_dump.
  repeat (erewrite required_lookup; [|reflexivity|reflexivity]).
  reflexivity.
Qed.

Lemma nested_lookup (d : gmap string json) name (t : TeamInfo) :
  d !! name = Some (TeamInfo_dump t) -> nested d name = VOk t.
Proof. intros L. unfold nested. rewrite L. apply TeamInfo_validate_dump. Qed.

Lemma check_team_different_pass (v : json) (g : Game) :
  t_id (home_team g) ≠ t_id (visitor_team g) ->
  check_team_different v g = VOk g.
Proof.
  intros Hne. unfold check_team_different.
  destruct (Z.eqb_spec (t_id (home_team g)) (t_id (visitor_team g)));
    [contradiction|reflexivity].
Qed.

(** The line written for a validated game validates again, to the same
    game, as long as the library reads back the date and the datetime it
    printed. *)
Theorem dump_then_validate (v : json) (g : Game) :
  model_validate v = VOk g ->
  date_validate (JStr (date_dump (date g))) = inr (date g) ->
  datetime_validate (JStr (datetime_dump (datetime g))) = inr (datetime g) ->
  model_validate (JObj (model_dump g)) = VOk g.
Proof.
  intros E Hd Hdt.
  destruct (model_validate_counts v g E) as (Hne & Hp & Hh & Hv & Ho).
  clear E. unfold optional_counts in Ho.
  repeat match goal with
         | Ho : Forall _ (_ :: _) |- _ =>
             apply Forall_cons in Ho as [? Ho]
         end.
  unfold model_validate, Game_fields_validate.
  repeat first
    [ erewrite required_lookup;
        [|reflexivity
         |first [ reflexivity | eassumption
                | apply IntGE0_nonneg; assumption ]]
    | erewrite optional_lookup;
        [|reflexivity
         |first [ apply Optional_IntGE0_dump; assumption
                | apply Optional_bool_dump ]]
    | erewrite nested_lookup; [|reflexivity] ].
  unfold vap. cbv beta iota.
  destruct g. apply check_team_different_pass. exact Hne.
Qed.

(** *** Optional fields *)

Lemma ok_to_optional_null {A} pre pre' (d d' : gmap string json) name
    (ty : json -> lib_error + A) :
  same_or_null (d !! name) (d' !! name) ->
  ok_to (optional pre d name ty) (optional pre' d' name ty).
Proof.
  intros [E|[Ho Ho']] a.
  - unfold optional. rewrite E.
    destruct (d !! name) as [v|]; [|trivial].
    destruct (Optional ty v); [discriminate|]. trivial.
  - unfold optional.
    destruct Ho as [-> | ->], Ho' as [-> | ->]; trivial.
Qed.

Lemma ok_to_nested (d d' : gmap string json) name :
  d' !! name = d !! name -> ok_to (nested d name) (nested d' name).
Proof.
  intros E a. unfold nested. rewrite E.
  destruct (d !! name); [trivial|discriminate].
Qed.

Ltac a_field := apply (bool_decide_unpack _); vm_compute; exact I.

Lemma Game_fields_validate_null (d d' : gmap string json) :
  (forall name, name ∈ required_fields -> d' !! name = d !! name) ->
  (forall name, name ∈ optional_fields ->
     same_or_null (d !! name) (d' !! name)) ->
  ok_to (Game_fields_validate d) (Game_fields_validate d').
Proof.
  intros Hr Ho. unfold Game_fields_validate.
  repeat (apply SchemaFacts.ok_to_vap;
          [| first [ apply ok_to_nested, Hr; a_field
                   | apply SchemaFacts.ok_to_required, Hr; a_field
                   | apply ok_to_optional_null, Ho; a_field ]]).
  apply SchemaFacts.ok_to_refl.
Qed.

Lemma required_not_optional name k :
  name ∈ required_fields -> k ∈ optional_fields -> name ≠ k.
Proof.
  intros Hn Hk ->. revert Hn Hk.
  assert (Hd : Forall (fun x => x ∉ optional_fields) required_fields)
    by (apply (bool_decide_unpack _); vm_compute; exact I).
  intros Hn Hk. eapply Forall_forall in Hd; [|exact Hn]. contradiction.
Qed.

Lemma model_validate_ok_to (d d' : gmap string json) (g : Game) :
  ok_to (Game_fields_validate d) (Game_fields_validate d') ->
  model_validate (JObj d) = VOk g -> model_validate (JObj d') = VOk g.
Proof.
  intros Hok E.
  apply SchemaFacts.model_validate_ok_inv in E as (d0 & [= <-] & Hf & Hne).
  unfold model_validate. rewrite (Hok _ Hf).
  apply check_team_different_pass, Hne.
Qed.

(** For a field declared [Optional[...] = None], an explicit [None]
    and an absent key are the same: a record validates with the one
    exactly when it validates with the other, to the same game. *)
Theorem optional_null_is_absent (r : gmap string json) (k : string)
    (g : Game) :
  k ∈ optional_fields ->
  r !! k = None ->
  model_validate (JObj (<[k := JNull]> r)) = VOk g
  <-> model_validate (JObj r) = VOk g.
Proof.
  intros Hk L. split; apply model_validate_ok_to, Game_fields_validate_null.
  - intros name Hn. apply symmetry, lookup_insert_ne.
    intros ->. exact (required_not_optional _ _ Hn Hk eq_refl).
  - intros name Hn. destruct (decide (name = k)) as [->|Hne].
    + right. rewrite lookup_insert_eq, L. auto.
    + left. apply symmetry, lookup_insert_ne. congruence.
  - intros name Hn. apply lookup_insert_ne.
    intros ->. exact (required_not_optional _ _ Hn Hk eq_refl).
  - intros name Hn. destruct (decide (name = k)) as [->|Hne].
    + right. rewrite lookup_insert_eq, L. auto.
    + left. apply lookup_insert_ne. congruence.
Qed.

End Facts.

Ltac is_a_field := apply (bool_decide_unpack _); vm_compute; exact I.

(** [optional_null_is_absent] on the sample record, for ["home_q1"]. *)
Lemma optional_null_is_absent_witness :
  exists g,
    model_validate
      (JObj (<["home_q1" := JNull]>
               (Sample.game_record (JInt 17) Sample.celtics Sample.nets)))
    = VOk g
    /\ model_validate Sample.valid_game = VOk g.
Proof.
  eexists. eassert (E : model_validate Sample.valid_game = VOk _) by reflexivity.
  split; [|exact E].
  apply (optional_null_is_absent
           (Sample.game_record (JInt 17) Sample.celtics Sample.nets));
    [is_a_field|reflexivity|exact E].
Defined.

(** [validated_game_invariants] on [Sample.valid_game]. *)
Lemma validated_game_invariants_witness :
  exists g,
    model_validate Sample.valid_game = VOk g
    /\ t_id (home_team g) ≠ t_id (visitor_team g)
    /\ 0 <= period g /\ 0 <= home_team_score g /\ 0 <= visitor_team_score g
    /\ Forall nonneg_if_present (optional_counts g).
Proof.
  eexists. split; [reflexivity|].
  apply (validated_game_invariants Sample.valid_game). reflexivity.
Defined.

(** [negative_count_rejected] on the sample record with a home score
    of -3. *)
Lemma negative_count_rejected_witness :
  fails_with
    (mk_error ["home_team_score"] greater_than_equal (JInt (-3)))
    (model_validate
       (JObj (<["home_team_score" := JInt (-3)]>
                (Sample.game_record (JInt 17) Sample.celtics Sample.nets)))).
Proof.
  apply negative_count_rejected; [is_a_field|reflexivity|lia].
Defined.

(** [missing_field_rejected] on the sample record without its season. *)
Lemma missing_field_rejected_witness :
  fails_with
    (mk_error ["season"] missing
       (JObj (delete "season"
                (Sample.game_record (JInt 17) Sample.celtics Sample.nets))))
    (model_validate
       (JObj (delete "season"
                (Sample.game_record (JInt 17) Sample.celtics Sample.nets)))).
Proof.
  apply missing_field_rejected; [is_a_field|reflexivity].
Defined.

(** [dump_then_validate] on [Sample.valid_game]. *)
Lemma dump_then_validate_witness :
  exists g,
    model_validate Sample.valid_game = VOk g
    /\ model_validate (JObj (model_dump g)) = VOk g.
Proof.
  eexists. split; [reflexivity|].
  apply (dump_then_validate Sample.valid_game); reflexivity.
Defined.

End SchemaMore.

(* ===================================================================== *)
(** * Further properties of the validation script                         *)
(* ===================================================================== *)

Module ValidateMore.
Import Validate Run ValidateProps.


Lemma errors_file_append_ne year y er fs :
  y ≠ year -> errors_file (append_error year er fs) y = errors_file fs y.
Proof.
  intros Hne. unfold errors_file, append_error. cbn [errors].
  rewrite filter_app, filter_cons_False, filter_nil, app_nil_r by (simpl; congruence).
  reflexivity.
Qed.

Section Facts.
Context `{Schema.Pydantic} `{Pandas}.

Lemma classify_tag msg c : (classify msg c).2 = (classify msg counters).2.
Proof. unfold classify. destruct (Py.contains _ _); reflexivity. Qed.

(** The body of the loop on a record that validates, and on a
    dictionary that does not. *)
Lemma validate_game_valid year fs c (v : json) (g : Schema.Game) :
  Schema.model_validate v = Schema.VOk g ->
  validate_game year fs c v
  = (append_validated year (JObj (Schema.model_dump g)) fs, c, Ok tt).
Proof. intros E. unfold validate_game. rewrite E. reflexivity. Qed.

Lemma validate_game_invalid year fs c (d : gmap string json) es :
  Schema.model_validate (JObj d) = Schema.VErr es ->
  validate_game year fs c (JObj d)
  = (append_error year (error_record es d) fs,
     (classify (Schema.ValidationError_str "Game" es) c).1, Ok tt).
Proof.
  intros E. unfold validate_game. rewrite E. unfold error_record.
  rewrite <- (classify_tag _ c).
  destruct (classify _ c) as [c' t]. reflexivity.
Qed.


(** What one iteration leaves alone: the input files, the tables, the
    reports, and the validated file and error log of any other season,
    also when it raises. *)
Lemma validate_game_frame year fs c game fs' c' r :
  validate_game year fs c game = (fs', c', r) ->
  raw fs' = raw fs /\ clean fs' = clean fs /\ reports fs' = reports fs
  /\ (forall y, y ≠ year -> validated fs' !! y = validated fs !! y)
  /\ (forall y, y ≠ year -> errors_file fs' y = errors_file fs y).
Proof.
  destruct game as [| | | | |d];
    try (rewrite ValidateFacts.validate_game_not_object by discriminate;
         intros [= <- _ _]; auto).
  destruct (Schema.model_validate (JObj d)) as [g|es] eqn:E.
  - rewrite (validate_game_valid _ _ _ _ g E). intros [= <- _ _].
    repeat split; trivial. intros y Hne. unfold append_validated.
    cbn [validated]. apply lookup_insert_ne. congruence.
  - rewrite (validate_game_invalid _ _ _ _ es E). intros [= <- _ _].
    repeat split; trivial. intros y Hne. apply errors_file_append_ne, Hne.
Qed.

Lemma validate_games_frame year games fs c fs' c' r :
  validate_games year fs c games = (fs', c', r) ->
  raw fs' = raw fs /\ clean fs' = clean fs /\ reports fs' = reports fs
  /\ (forall y, y ≠ year -> validated fs' !! y = validated fs !! y)
  /\ (forall y, y ≠ year -> errors_file fs' y = errors_file fs y).
Proof.
  revert fs c. induction games as [|game rest IH]; intros fs c; simpl.
  - intros [= <- _ _]. auto.
  - destruct (validate_game year fs c game) as [[fs1 c1] [[]|e]] eqn:E;
      apply validate_game_frame in E as (Er & Ec & Ep & Ev & Ee).
    + intros Hr. apply IH in Hr as (Er' & Ec' & Ep' & Ev' & Ee').
      repeat split; try congruence.
      * intros y Hne. rewrite Ev', Ev; trivial.
      * intros y Hne. rewrite Ee', Ee; trivial.
    + intros [= <- _ _]. auto.
Qed.

(** Validating the records of a season touches the files of that season
    only: the input files, the tables, the reports, and the validated
    file and the error log of every other season are as before, also
    when the loop raises. *)
Theorem validation_keeps_other_seasons year games fs c :
  let fs' := (validate_games year fs c games).1.1 in
  raw fs' = raw fs /\ clean fs' = clean fs /\ reports fs' = reports fs
  /\ (forall y, y ≠ year ->
        validated fs' !! y = validated fs !! y
        /\ errors_file fs' y = errors_file fs y).
Proof.
  destruct (validate_games year fs c games) as [[fs' c'] r] eqn:E. simpl.
  apply validate_games_frame in E as (Er & Ec & Ep & Ev & Ee).
  repeat split; auto.
Qed.




(** *** Missing input files *)

Lemma validate_files_frame years fs c fs' c' r :
  validate_files years fs c = (fs', c', r) ->
  raw fs' = raw fs /\ clean fs' = clean fs /\ reports fs' = reports fs.
Proof.
  revert fs c. induction years as [|year rest IH]; intros fs c;
    cbn [validate_files].
  - intros [= <- _ _]. auto.
  - unfold validate_file. destruct (raw fs !! year) as [games|].
    + destruct (validate_games year fs c games) as [[fs1 c1] [[]|e]] eqn:E;
        apply validate_games_frame in E as (Er & Ec & Ep & _).
      * intros Hr. apply IH in Hr as (Er' & Ec' & Ep'). repeat split; congruence.
      * intros [= <- _ _]. auto.
    + intros [= <- _ _]. auto.
Qed.

Lemma validate_files_missing years fs c year :
  year ∈ years -> raw fs !! year = None ->
  exists fs' c' e, validate_files years fs c = (fs', c', Raise e).
Proof.
  revert fs c. induction years as [|y rest IH]; intros fs c Hin L.
  - by apply elem_of_nil in Hin.
  - cbn [validate_files]. unfold validate_file.
    destruct (raw fs !! y) as [games|] eqn:Ly; [|eauto].
    destruct (validate_games y fs c games) as [[fs1 c1] [[]|e]] eqn:E;
      [|eauto].
    apply validate_games_frame in E as (Er & _).
    apply elem_of_cons in Hin as [->|Hin]; [congruence|].
    apply IH; [exact Hin|]. rewrite Er. exact L.
Qed.

(** When one of the five input files is missing the script stops on an
    exception during validation: no table and no report is written. *)
Theorem missing_input_file_aborts (fs : Fs) (year : Z) :
  year ∈ files ->
  raw fs !! year = None ->
  (exists e, raised (main fs) = Some e)
  /\ written (main fs) = []
  /\ clean (files_after (main fs)) = clean fs
  /\ reports (files_after (main fs)) = reports fs.
Proof.
  intros Hin L. unfold main.
  destruct (validate_files_missing files fs counters year Hin L)
    as (fs' & c' & e & E).
  rewrite E. cbn [raised written files_after].
  apply validate_files_frame in E as (_ & Ec & Ep). eauto.
Qed.

(** *** Tables and reports *)

Lemma flatten_lines_length lines rows :
  flatten_lines lines = Ok rows -> length rows = length lines.
Proof.
  revert rows. induction lines as [|line rest IH]; intros rows;
    cbn [flatten_lines].
  - intros [= <-]. reflexivity.
  - destruct (flatten_line line) as [r|e]; [|discriminate].
    cbn [mbind result_bind].
    destruct (flatten_lines rest) as [rs|e]; [|discriminate].
    intros [= <-]. cbn [length]. f_equal. apply IH. reflexivity.
Qed.

Lemma flatten_lines_flattens lines :
  Forall flattens lines -> exists rows, flatten_lines lines = Ok rows.
Proof.
  induction 1 as [|line rest [row Hrow] _ [rows Hrows]]; cbn [flatten_lines].
  - eauto.
  - rewrite Hrow. cbn [mbind result_bind]. rewrite Hrows. eauto.
Qed.

Lemma count_validated_ext fs fs' :
  validated fs' = validated fs -> count_validated fs' = count_validated fs.
Proof. intros E. unfold count_validated. rewrite E. reflexivity. Qed.

Lemma clean_year_validated c year fs fs' r :
  clean_year c year fs = (fs', r) -> validated fs' = validated fs.
Proof.
  unfold clean_year. destruct (validated fs !! year); [|by intros [= <- _]].
  destruct (flatten_lines _); [|intros [= <- _]; reflexivity].
  destruct (to_parquet _); intros [= <- _]; reflexivity.
Qed.

(** The reports of a second loop that ends without an exception. *)
Lemma clean_years_complete c years fs log :
  raised (clean_years c years fs log) = None ->
  validated (files_after (clean_years c years fs log)) = validated fs
  /\ written (clean_years c years fs log)
     = log ++ ((fun y => (y, {| total_valid := count_validated fs;
                               error_counts := c |}))
               <$> filter (fun y => is_Some (validated fs !! y)) years).
Proof.
  revert fs log. induction years as [|year rest IH]; intros fs log;
    cbn [clean_years].
  - intros _. cbn [files_after written]. rewrite filter_nil, app_nil_r.
    auto.
  - destruct (clean_year c year fs) as [fs1 [[r|]|e]] eqn:E;
      [| |discriminate]; pose proof (clean_year_validated _ _ _ _ _ E) as Ev;
      intros Hr; apply IH in Hr as [Hv Hw]; rewrite Hw, Hv, Ev;
      rewrite (count_validated_ext _ _ Ev); (split; [reflexivity|]);
      unfold clean_year in E; destruct (validated fs !! year) as [lines|] eqn:L.
    + destruct (flatten_lines lines); [|discriminate].
      destruct (to_parquet _); [|discriminate]. injection E as _ <-.
      rewrite filter_cons_True by (rewrite L; eauto).
      cbn [fmap list_fmap]. rewrite <- app_assoc. reflexivity.
    + discriminate.
    + destruct (flatten_lines lines); [|discriminate].
      destruct (to_parquet _); discriminate.
    + rewrite filter_cons_False by (rewrite L; intros [? ?]; discriminate).
      reflexivity.
Qed.

(** When the script ends without an exception, it has written one
    report for each season that has a validated file and for no other,
    in the order of the seasons, and [total_valid] is in every report
    the number of these seasons. *)
Theorem reports_cover_validated_seasons (fs : Fs) :
  raised (main fs) = None ->
  (written (main fs)).*1
  = filter (fun y => is_Some (validated (files_after (main fs)) !! y))
           validate_years
  /\ Forall (fun yr => total_valid yr.2
                       = Z.of_nat (length (written (main fs))))
            (written (main fs)).
Proof.
  unfold main.
  destruct (validate_files files fs counters) as [[fs1 c] [[]|e]];
    [|discriminate].
  intros Hr. apply clean_years_complete in Hr as [Hv Hw].
  rewrite Hw, Hv. cbn [app]. split.
  - rewrite <- list_fmap_compose. apply list_fmap_id.
  - apply Forall_fmap, Forall_forall. intros y _. cbn [snd total_valid].
    rewrite length_fmap. reflexivity.
Qed.

Lemma stored_write year rows r0 fs y r :
  y ≠ year -> stored fs y r ->
  stored (write_clean_and_report year rows r0 fs) y r.
Proof.
  intros Hne (Hr & lines & rs & Hv & Hf & Hc & Hl).
  unfold stored, write_clean_and_report. cbn [reports validated clean].
  rewrite !lookup_insert_ne by congruence. split; [exact Hr|].
  exists lines, rs. auto.
Qed.

Lemma clean_years_stored c years fs log :
  NoDup years ->
  (forall y r, (y, r) ∈ log -> (y ∉ years) /\ stored fs y r) ->
  forall y r, (y, r) ∈ written (clean_years c years fs log) ->
    stored (files_after (clean_years c years fs log)) y r.
Proof.
  revert fs log. induction years as [|year rest IH]; intros fs log Hnd Hlog;
    cbn [clean_years].
  - intros y r Hin. apply Hlog, Hin.
  - apply NoDup_cons in Hnd as [Hyear Hnd].
    unfold clean_year. destruct (validated fs !! year) as [lines|] eqn:L.
    + destruct (flatten_lines lines) as [rows|e] eqn:F;
        [destruct (to_parquet rows) as [[]|e]|].
      * apply IH; [exact Hnd|]. intros y r Hin.
        apply elem_of_app in Hin as [Hin|Hin].
        -- destruct (Hlog y r Hin) as [Hy Hs].
           apply not_elem_of_cons in Hy as [Hne Hy]. split; [exact Hy|].
           apply stored_write; assumption.
        -- apply list_elem_of_singleton in Hin as [= -> ->].
           split; [exact Hyear|].
           unfold stored, write_clean_and_report.
           cbn [reports validated clean]. rewrite !lookup_insert_eq.
           split; [reflexivity|]. exists lines, rows.
           repeat split; trivial. eapply flatten_lines_length, F.
      * cbn [written files_after]. intros y r Hin. apply Hlog, Hin.
      * cbn [written files_after]. intros y r Hin. apply Hlog, Hin.
    + apply IH; [exact Hnd|]. intros y r Hin.
      destruct (Hlog y r Hin) as [Hy Hs].
      apply not_elem_of_cons in Hy as [_ Hy]. auto.
Qed.

(** Every report the script has written is on disk when the script
    ends, also when it ends on an exception, together with the table of
    its season; the table has one row per line of the validated file of
    the season. *)
Theorem written_reports_stored (fs : Fs) (y : Z) (r : QualityReport) :
  (y, r) ∈ written (main fs) ->
  reports (files_after (main fs)) !! y = Some r
  /\ exists lines rows,
       validated (files_after (main fs)) !! y = Some lines
       /\ flatten_lines lines = Ok rows
       /\ clean (files_after (main fs)) !! y = Some rows
       /\ length rows = length lines.
Proof.
  unfold main.
  destruct (validate_files files fs counters) as [[fs1 c] [[]|e]].
  - apply clean_years_stored.
    + unfold validate_years. apply (bool_decide_unpack _). vm_compute. exact I.
    + intros y' r' Hin. by apply elem_of_nil in Hin.
  - cbn [written]. intros Hin. by apply elem_of_nil in Hin.
Qed.

(** *** The whole script *)

Lemma all_flatten_append year (g : Schema.Game) fs :
  all_flatten fs ->
  all_flatten (append_validated year (JObj (Schema.model_dump g)) fs).
Proof.
  intros Ha y lines. unfold append_validated. cbn [validated].
  destruct (decide (y = year)) as [->|Hne].
  - rewrite lookup_insert_eq. intros [= <-]. apply Forall_app. split.
    + destruct (validated fs !! year) as [old|] eqn:L; cbn [default from_option id];
        [eapply Ha, L|constructor].
    + repeat constructor. eexists. unfold flatten_line.
      apply ValidateFacts.flatten_model_dump.
  - rewrite lookup_insert_ne by congruence. apply Ha.
Qed.

Lemma validate_games_flatten year (ds : list (gmap string json)) fs c :
  all_flatten fs ->
  exists fs' c',
    validate_games year fs c (JObj <$> ds) = (fs', c', Ok tt)
    /\ all_flatten fs'.
Proof.
  revert fs c. induction ds as [|d ds IH]; intros fs c Ha;
    cbn [fmap list_fmap validate_games]; [eauto|].
  destruct (Schema.model_validate (JObj d)) as [g|es] eqn:E.
  - rewrite (validate_game_valid _ _ _ _ g E). apply IH.
    apply all_flatten_append, Ha.
  - rewrite (validate_game_invalid _ _ _ _ es E). apply IH. exact Ha.
Qed.

Lemma validate_files_objects years fs c :
  (forall y, y ∈ years -> exists ds, raw fs !! y = Some (JObj <$> ds)) ->
  all_flatten fs ->
  exists fs' c',
    validate_files years fs c = (fs', c', Ok tt) /\ all_flatten fs'.
Proof.
  revert fs c. induction years as [|year rest IH]; intros fs c Hraw Ha;
    cbn [validate_files]; [eauto|].
  unfold validate_file.
  destruct (Hraw year) as [ds L]; [constructor|]. rewrite L.
  destruct (validate_games_flatten year ds fs c Ha) as (fs1 & c1 & E & Ha1).
  rewrite E. apply IH; [|exact Ha1].
  intros y Hy. apply validate_games_frame in E as (Er & _). rewrite Er.
  apply Hraw. constructor. exact Hy.
Qed.

(** The second loop ends without an exception when every line is
    accepted by [flatten] and every table by the Parquet writer. *)
Lemma clean_years_flatten c years fs log :
  all_flatten fs -> Forall (table_accepted fs) years ->
  raised (clean_years c years fs log) = None.
Proof.
  intros Ha Ht. revert fs log Ha Ht.
  induction years as [|year rest IH]; intros fs log Ha Ht;
    cbn [clean_years]; [reflexivity|].
  apply Forall_cons in Ht as [Hy Ht].
  unfold clean_year. unfold table_accepted in Hy.
  destruct (validated fs !! year) as [lines|] eqn:L.
  - destruct (flatten_lines_flattens lines (Ha _ _ L)) as [rows F].
    rewrite F in Hy |- *. rewrite Hy. apply IH.
    + exact Ha.
    + eapply Forall_impl; [exact Ht|]. intros y. exact id.
  - apply IH; assumption.
Qed.


(** The row of the clean table made from a validated record holds the
    integers and strings of the validated game: the two team ids are
    different integers, the two scores are integers that are not
    negative, the names are strings. *)
Theorem validated_record_row (v : json) (g : Schema.Game) :
  Schema.model_validate v = Schema.VOk g ->
  exists row,
    flatten (Schema.model_dump g) = Ok row
    /\ home_team_id row = JInt (Schema.t_id (Schema.home_team g))
    /\ visitor_team_id row = JInt (Schema.t_id (Schema.visitor_team g))
    /\ home_team_id row ≠ visitor_team_id row
    /\ home_team_score row = JInt (Schema.home_team_score g)
    /\ visitor_team_score row = JInt (Schema.visitor_team_score g)
    /\ 0 <= Schema.home_team_score g /\ 0 <= Schema.visitor_team_score g
    /\ home_team_full_name row
       = JStr (Schema.t_full_name (Schema.home_team g))
    /\ visitor_team_full_name row
       = JStr (Schema.t_full_name (Schema.visitor_team g))
    /\ season row = JInt (Schema.season g).
Proof.
  intros E.
  destruct (SchemaMore.model_validate_counts v g E)
    as (Hne & _ & Hh & Hv & _).
  eexists. split; [apply ValidateFacts.flatten_model_dump|].
  cbn [home_team_id visitor_team_id home_team_score visitor_team_score
       home_team_full_name visitor_team_full_name season].
  repeat split; trivial. congruence.
Qed.

End Facts.

(** [validated_record_row] on [Sample.valid_game]. *)
Lemma validated_record_row_witness :
  exists g row,
    Schema.model_validate Sample.valid_game = Schema.VOk g
    /\ flatten (Schema.model_dump g) = Ok row
    /\ home_team_id row ≠ visitor_team_id row.
Proof.
  eexists.
  eassert (E : Schema.model_validate Sample.valid_game = Schema.VOk _)
    by reflexivity.
  destruct (validated_record_row Sample.valid_game _ E)
    as (row & Hf & _ & _ & Hne & _).
  exists row. split; [exact E|]. split; [exact Hf|exact Hne].
Defined.



(** [missing_input_file_aborts] without any input file. *)
Lemma missing_input_file_aborts_witness :
  (exists e, raised (main Sample.no_files) = Some e)
  /\ written (main Sample.no_files) = []
  /\ clean (files_after (main Sample.no_files)) = clean Sample.no_files
  /\ reports (files_after (main Sample.no_files)) = reports Sample.no_files.
Proof.
  apply (missing_input_file_aborts Sample.no_files 2020);
    [constructor|reflexivity].
Defined.

(** [reports_cover_validated_seasons] on [Sample.five_files]. *)
Lemma reports_cover_validated_seasons_witness :
  (written (main Sample.five_files)).*1
  = filter (fun y => is_Some (validated (files_after (main Sample.five_files))
                                !! y))
           validate_years
  /\ Forall (fun yr => total_valid yr.2
                       = Z.of_nat (length (written (main Sample.five_files))))
            (written (main Sample.five_files)).
Proof.
  apply reports_cover_validated_seasons. vm_compute. reflexivity.
Defined.

(** [written_reports_stored] on [Sample.five_files], whose only report
    is that of 2020. *)
Lemma written_reports_stored_witness :
  exists r,
    (2020, r) ∈ written (main Sample.five_files)
    /\ reports (files_after (main Sample.five_files)) !! 2020 = Some r.
Proof.
  eexists. eassert (Hin : (2020, _) ∈ written (main Sample.five_files))
    by (vm_compute; constructor).
  split; [exact Hin|].
  exact (proj1 (written_reports_stored Sample.five_files 2020 _ Hin)).
Defined.


End ValidateMore.

(* ===================================================================== *)
(** * Further properties of the ingestion script                          *)
(* ===================================================================== *)

Module IngestMore.
Import Ingest Api Run IngestProps.

(** The loop does not run on a cursor that is false for Python. *)
Lemma pagination_falsy max_pages (remote : Remote) years fuel page cursor
    all_games sent trace :
  Py.truthy cursor = false ->
  pagination max_pages remote years fuel page cursor all_games sent trace
  = (trace, Ok (page, all_games)).
Proof. intros Hc. destruct fuel; cbn [pagination]; [|rewrite Hc]; reflexivity. Qed.







Section Facts.
Variable max_pages : Z.
Variable remote : Remote.
Variable years : Z.

(** *** Whatever the source answers *)

Lemma pagination_trace fuel page cursor all_games sent trace :
  exists more,
    (pagination max_pages remote years fuel page cursor all_games sent trace).1
    = trace ++ more
    /\ loop_trace years more
    /\ (requests more <= fuel)%nat.
Proof.
  revert page cursor all_games sent trace.
  induction fuel as [|fuel IH]; intros page cursor all_games sent trace.
  - exists []. cbn [pagination fst]. rewrite app_nil_r.
    repeat split; [constructor|reflexivity].
  - cbn [pagination].
    destruct (Py.truthy cursor) eqn:Hc; cbn [andb];
      [|exists []; cbn [fst]; rewrite app_nil_r;
        repeat split; [constructor|unfold requests; cbn; lia]].
    destruct (page <? max_pages);
      [|exists []; cbn [fst]; rewrite app_nil_r;
        repeat split; [constructor|unfold requests; cbn; lia]].
    set (params := {| per_page := 100; seasons := years;
                      cursor := Some cursor |}).
    destruct (remote sent params) as [resp|e];
      [|exists [Get params]; cbn [fst];
        repeat split; [constructor; assumption|unfold requests; cbn; lia]].
    destruct (status_code resp =? 429).
    + destruct (IH (page + 1) cursor all_games (S sent)
                   ((trace ++ [Get params]) ++ [Sleep 12]))
        as (more & E & Hl & Hr).
      exists (Get params :: Sleep 12 :: more). rewrite E, <- !app_assoc.
      repeat split; [constructor; assumption|].
      unfold requests in *. cbn. lia.
    + destruct (read_page resp) as [[[cursor' items]|]|e];
        [|exists [Get params]; cbn [fst];
          repeat split; [constructor; assumption|unfold requests; cbn; lia] ..].
      destruct (IH (page + 1) cursor' (all_games ++ items) (S sent)
                   ((trace ++ [Get params]) ++ [Sleep 12]))
        as (more & E & Hl & Hr).
      exists (Get params :: Sleep 12 :: more). rewrite E, <- !app_assoc.
      repeat split; [constructor; assumption|].
      unfold requests in *. cbn. lia.
Qed.



(** Whatever the source answers, a fetch sends at most one request more
    than the page cap (two when the cap is below 1). *)
Theorem fetch_requests_bounded :
  (requests (fetch_season max_pages remote years).1
   <= Z.to_nat (Z.max max_pages 1) + 1)%nat.
Proof.
  unfold fetch_season. cbv zeta.
  destruct (remote 0%nat _) as [r0|e0]; [|unfold requests; cbn; lia].
  destruct (status_code r0 =? 429).
  - destruct (remote 1%nat _ ≫= read_first_page) as [[cursor items]|e1];
      [|unfold requests; cbn; lia].
    match goal with
    | |- context [pagination ?m ?r ?y ?f ?p ?c ?a ?s ?t] =>
        destruct (pagination_trace f p c a s t) as (more & E & _ & Hr);
        destruct (pagination m r y f p c a s t) as [tr [[pg ag]|e]]
    end; cbn [fst] in *; subst tr; rewrite IngestFacts.requests_app;
      unfold requests in *; cbn; lia.
  - destruct (Ok r0 ≫= read_first_page) as [[cursor items]|e1];
      [|unfold requests; cbn; lia].
    match goal with
    | |- context [pagination ?m ?r ?y ?f ?p ?c ?a ?s ?t] =>
        destruct (pagination_trace f p c a s t) as (more & E & _ & Hr);
        destruct (pagination m r y f p c a s t) as [tr [[pg ag]|e]]
    end; cbn [fst] in *; subst tr; rewrite IngestFacts.requests_app;
      unfold requests in *; cbn; lia.
Qed.


End Facts.

(** *** Rate limiting *)

Section Source.
Variable max_pages : Z.
Variable remote : Source.
Variable years : Z.




End Source.

(** *** Sources that serve a list of pages *)

Section Pages.
Variable max_pages : Z.
Variable years : Z.
Variable pages : list (list json).
Variable last_cursor : json.
Variable after : Page.

Lemma serving_page n req (p : list json) :
  pages !! n = Some p ->
  serving pages last_cursor after n req
  = {| status := 200; data := p;
       next_cursor := cursor_at pages last_cursor (S n) |}.
Proof. intros L. unfold serving. rewrite L. reflexivity. Qed.

Lemma serving_after n req :
  (length pages <= n)%nat -> serving pages last_cursor after n req = after.
Proof.
  intros Hn. unfold serving. rewrite lookup_ge_None_2 by lia. reflexivity.
Qed.

(** From the request number [k] on, the loop reads the pages that are
    left, one request each, and comes to the point where the source has
    no page left. *)
Lemma pagination_serving (m : nat) :
  forall k fuel page all_games trace,
    (1 <= k)%nat -> (k + m = length pages)%nat ->
    Forall (fun p => p ≠ []) (drop 1 pages) ->
    page + Z.of_nat m <= max_pages ->
    exists trace',
      pagination max_pages (serve (serving pages last_cursor after)) years
        (m + fuel) page (cursor_at pages last_cursor k) all_games k trace
      = pagination max_pages (serve (serving pages last_cursor after)) years
          fuel (page + Z.of_nat m) last_cursor
          (all_games ++ concat (drop k pages)) (length pages) trace'
      /\ requests trace' = (requests trace + m)%nat.
Proof.
  induction m as [|m IH]; intros k fuel page all_games trace Hk Hm Hne Hp.
  - exists trace. assert (k = length pages) as -> by lia.
    rewrite drop_all, app_nil_r, Z.add_0_r, Nat.add_0_r.
    unfold cursor_at. rewrite decide_False by lia. auto.
  - assert (Hc : cursor_at pages last_cursor k = JInt (Z.of_nat k))
      by (unfold cursor_at; rewrite decide_True by lia; reflexivity).
    rewrite Hc. cbn [Nat.add]. rewrite IngestFacts.pagination_serve.
    replace (Py.truthy (JInt (Z.of_nat k))) with true
      by (cbn; destruct (Z.eqb_spec (Z.of_nat k) 0); [lia|reflexivity]).
    replace (page <? max_pages) with true
      by (symmetry; apply Z.ltb_lt; lia).
    cbn [andb]. cbv zeta.
    destruct (lookup_lt_is_Some_2 pages k) as [p Lp]; [lia|].
    rewrite !(serving_page _ _ p Lp). cbn [status data next_cursor].
    change (200 =? 429) with false.
    change ((400 <=? 200) && (200 <? 600)) with false. cbv beta iota.
    assert (Hp0 : p ≠ []).
    { eapply Forall_lookup_1 in Hne; [exact Hne|].
      rewrite lookup_drop. replace (1 + (k - 1))%nat with k by lia. exact Lp. }
    destruct p as [|item items]; [congruence|].
    destruct (IH (S k) fuel (page + 1) (all_games ++ item :: items)
                 ((trace ++ [Get {| per_page := 100; seasons := years;
                                    cursor := Some (JInt (Z.of_nat k)) |}])
                  ++ [Sleep 12]))
      as (trace' & E & R); [lia|lia|exact Hne|lia|].
    exists trace'. rewrite E.
    rewrite (drop_S _ _ _ Lp), concat_cons, app_assoc.
    replace (page + 1 + Z.of_nat m) with (page + Z.of_nat (S m)) by lia.
    split; [reflexivity|]. rewrite R, !IngestFacts.requests_app.
    unfold requests. cbn. lia.
Qed.

End Pages.

Section Served.
Variable max_pages : Z.
Variable years : Z.
Variable first_page : list json.
Variable more_pages : list (list json).
Hypothesis more_pages_nonempty : Forall (fun p => p ≠ []) more_pages.

Let pages := first_page :: more_pages.

Lemma length_pages : length pages = S (length more_pages).
Proof. reflexivity. Qed.

(** The first request on such a source, then the loop through the pages
    that follow the first. *)
Lemma fetch_serving last_cursor after fuel :
  Z.of_nat (length pages) <= max_pages ->
  Z.to_nat (max_pages - 1) = (length more_pages + fuel)%nat ->
  exists trace',
    fetch_season max_pages (serve (serving pages last_cursor after)) years
    = match pagination max_pages (serve (serving pages last_cursor after))
              years fuel (Z.of_nat (length pages)) last_cursor (concat pages)
              (length pages) trace' with
      | (trace, Ok (_, all_games)) => (trace, Ok all_games)
      | (trace, Raise e) => (trace, Raise e)
      end
    /\ requests trace' = length pages.
Proof.
  intros Hmax Hfuel. pose proof length_pages as Hlen.
  rewrite IngestFacts.fetch_season_serve. cbv zeta.
  rewrite !(serving_page pages last_cursor after 0 _ first_page eq_refl).
  cbn [status data next_cursor]. change (200 =? 429) with false.
  cbv beta iota zeta. cbn [status data next_cursor].
  change ((400 <=? 200) && (200 <? 600)) with false. cbv beta iota.
  rewrite Hfuel.
  destruct (pagination_serving max_pages years pages last_cursor after
              (length more_pages) 1 fuel 1 first_page
              [Get {| per_page := 100; seasons := years; cursor := None |}])
    as (trace' & E & R);
    [lia|reflexivity|exact more_pages_nonempty|lia|].
  exists trace'. rewrite E.
  replace (1 + Z.of_nat (length more_pages)) with (Z.of_nat (length pages))
    by lia.
  split; [reflexivity|]. rewrite R. unfold requests. cbn. lia.
Qed.

(** On a source that serves a list of pages, the last one without a
    cursor, and has no more pages than the cap allows, the fetch sends
    one request per page and returns the items of all the pages, in
    order. *)
Theorem fetch_follows_cursor_to_the_end :
  Z.of_nat (length pages) <= max_pages ->
  exists trace,
    fetch_season max_pages (serve (paged pages)) years
    = (trace, Ok (concat pages))
    /\ requests trace = length pages.
Proof.
  intros Hmax. pose proof length_pages as Hlen. unfold paged.
  destruct (fetch_serving JNull
              {| status := 200; data := []; next_cursor := JNull |}
              (Z.to_nat (max_pages - 1) - length more_pages) Hmax)
    as (trace' & E & R); [lia|].
  rewrite E, pagination_falsy by reflexivity. eauto.
Qed.

(** On a source that serves a list of pages and then an empty page,
    always with a cursor, the fetch stops at the empty page, short of the
    cap: it has sent one request per page and one more, and returns the
    items of all the pages, in order. *)
Theorem fetch_stops_at_empty_page :
  Z.of_nat (length pages) < max_pages ->
  exists trace,
    fetch_season max_pages (serve (paged_then_empty pages)) years
    = (trace, Ok (concat pages))
    /\ requests trace = S (length pages).
Proof.
  intros Hmax. pose proof length_pages as Hlen. unfold paged_then_empty.
  destruct (fetch_serving (JInt (Z.of_nat (length pages)))
              {| status := 200; data := [];
                 next_cursor := JInt (Z.of_nat (length pages)) |}
              (S (Z.to_nat (max_pages - 1) - length more_pages - 1)))
    as (trace' & E & R);
    [lia|lia|].
  rewrite E, IngestFacts.pagination_serve.
  replace (Py.truthy (JInt (Z.of_nat (length pages)))) with true
    by (rewrite Hlen; reflexivity).
  replace (Z.of_nat (length pages) <? max_pages) with true
    by (symmetry; apply Z.ltb_lt; lia).
  cbn [andb]. cbv zeta. rewrite !serving_after by lia.
  cbn [status data]. change (200 =? 429) with false.
  change ((400 <=? 200) && (200 <? 600)) with false. cbv beta iota.
  eexists. split; [reflexivity|].
  rewrite IngestFacts.requests_app, R. unfold requests. cbn. lia.
Qed.

(** On a source that serves a list of pages, always with a cursor, and
    then answers with an error status other than 429, the fetch raises
    the [HTTPError] of that status: the items of the pages received
    before are not returned, hence not written. *)
Theorem error_status_discards_pages (code : Z) :
  400 <= code < 600 ->
  code ≠ 429 ->
  Z.of_nat (length pages) < max_pages ->
  exists trace,
    fetch_season max_pages (serve (paged_then_status pages code)) years
    = (trace, Raise (HTTPError code))
    /\ requests trace = S (length pages).
Proof.
  intros Hs Hn Hmax. pose proof length_pages as Hlen.
  unfold paged_then_status.
  destruct (fetch_serving (JInt (Z.of_nat (length pages)))
              {| status := code; data := []; next_cursor := JNull |}
              (S (Z.to_nat (max_pages - 1) - length more_pages - 1)))
    as (trace' & E & R);
    [lia|lia|].
  rewrite E, IngestFacts.pagination_serve.
  replace (Py.truthy (JInt (Z.of_nat (length pages)))) with true
    by (rewrite Hlen; reflexivity).
  replace (Z.of_nat (length pages) <? max_pages) with true
    by (symmetry; apply Z.ltb_lt; lia).
  cbn [andb]. cbv zeta. rewrite !serving_after by lia.
  cbn [status data].
  replace (code =? 429) with false by (symmetry; apply Z.eqb_neq; exact Hn).
  replace (400 <=? code) with true by (symmetry; apply Z.leb_le; lia).
  replace (code <? 600) with true by (symmetry; apply Z.ltb_lt; lia).
  cbn [andb]. eexists. split; [reflexivity|].
  rewrite IngestFacts.requests_app, R. unfold requests. cbn. lia.
Qed.

End Served.

(** *** What a fetch returns, item by item *)

(** The items of an answer of the documented shape are those of its
    ["data"]. *)
Lemma items_of_serve (source : Source) n req :
  items_of (serve source n req) = data (source n req).
Proof. reflexivity. Qed.

Lemma read_first_page_items resp cursor items :
  read_first_page resp = Ok (cursor, items) -> items_of (Ok resp) = items.
Proof.
  unfold read_first_page, items_of. cbn [mbind result_bind].
  destruct (raise_for_status resp) as [[]|e]; cbn [mbind result_bind];
    [|discriminate].
  destruct (json_of resp) as [payload|e]; cbn [mbind result_bind];
    [|discriminate].
  destruct (page_items_of payload) as [page_items|e]; cbn [mbind result_bind];
    [|discriminate].
  destruct (next_cursor_of payload) as [c|e]; cbn [mbind result_bind];
    [|discriminate].
  destruct (Py.iterate page_items) as [l|e]; cbn [mbind result_bind];
    [|discriminate].
  intros [= _ <-]. reflexivity.
Qed.

Lemma read_page_items resp cursor items :
  read_page resp = Ok (Some (cursor, items)) -> items_of (Ok resp) = items.
Proof.
  unfold read_page, items_of. cbn [mbind result_bind].
  destruct (raise_for_status resp) as [[]|e]; cbn [mbind result_bind];
    [|discriminate].
  destruct (json_of resp) as [payload|e]; cbn [mbind result_bind];
    [|discriminate].
  destruct (page_items_of payload) as [page_items|e]; cbn [mbind result_bind];
    [|discriminate].
  destruct (Py.truthy page_items); [|discriminate].
  destruct (next_cursor_of payload) as [c|e]; cbn [mbind result_bind];
    [|discriminate].
  destruct (Py.iterate page_items) as [l|e]; cbn [mbind result_bind];
    [|discriminate].
  intros [= _ <-]. reflexivity.
Qed.

Section Items.
Variable P : json -> Prop.
Variable max_pages : Z.
Variable remote : Remote.
Variable years : Z.
Hypothesis remote_items : forall n req, Forall P (items_of (remote n req)).

Lemma pagination_items fuel page cursor all_games sent trace page' all_games' :
  Forall P all_games ->
  (pagination max_pages remote years fuel page cursor all_games sent trace).2
  = Ok (page', all_games') ->
  Forall P all_games'.
Proof.
  revert page cursor all_games sent trace.
  induction fuel as [|fuel IH]; intros page cursor all_games sent trace Ha;
    cbn [pagination].
  - intros [= _ <-]. exact Ha.
  - destruct (Py.truthy cursor && (page <? max_pages));
      [|intros [= _ <-]; exact Ha].
    set (params := {| per_page := 100; seasons := years;
                      cursor := Some cursor |}).
    pose proof (remote_items sent params) as Hi.
    destruct (remote sent params) as [resp|e]; [|discriminate].
    destruct (status_code resp =? 429); [apply IH, Ha|].
    destruct (read_page resp) as [[[cursor' items]|]|e] eqn:R;
      [|intros [= _ <-]; exact Ha|discriminate].
    apply IH. apply Forall_app. split; [exact Ha|].
    rewrite (read_page_items _ _ _ R) in Hi. exact Hi.
Qed.

Lemma fetch_season_items all_games :
  (fetch_season max_pages remote years).2 = Ok all_games ->
  Forall P all_games.
Proof.
  unfold fetch_season. fold (first_params years). cbv zeta.
  pose proof (remote_items 0%nat (first_params years)) as H0.
  pose proof (remote_items 1%nat (first_params years)) as H1.
  destruct (remote 0%nat (first_params years)) as [r0|e0]; [|discriminate].
  destruct (status_code r0 =? 429).
  - destruct (remote 1%nat (first_params years)) as [r1|e1];
      cbn [mbind result_bind]; [|discriminate].
    destruct (read_first_page r1) as [[cursor items]|e1] eqn:R;
      [|discriminate].
    rewrite (read_first_page_items _ _ _ R) in H1.
    match goal with
    | |- context [pagination ?m ?r ?y ?f ?p ?c ?a ?s ?t] =>
        pose proof (pagination_items f p c a s t) as Hp;
        destruct (pagination m r y f p c a s t) as [tr [[pg ag]|e1]]
    end; [|discriminate].
    intros [= <-]. eapply Hp; [exact H1|reflexivity].
  - cbn [mbind result_bind].
    destruct (read_first_page r0) as [[cursor items]|e1] eqn:R;
      [|discriminate].
    rewrite (read_first_page_items _ _ _ R) in H0.
    match goal with
    | |- context [pagination ?m ?r ?y ?f ?p ?c ?a ?s ?t] =>
        pose proof (pagination_items f p c a s t) as Hp;
        destruct (pagination m r y f p c a s t) as [tr [[pg ag]|e1]]
    end; [|discriminate].
    intros [= <-]. eapply Hp; [exact H0|reflexivity].
Qed.

End Items.

(** Every item a fetch returns is an item the script took from an answer
    of the source ([items_of]; for an answer of the documented shape,
    an item of its ["data"]): a property of all the items the source
    sends is a property of all the items written. *)
Theorem fetched_items_come_from_source (P : json -> Prop) (max_pages : Z)
    (remote : Remote) (years : Z) (all_games : list json) :
  (forall n req, Forall P (items_of (remote n req))) ->
  (fetch_season max_pages remote years).2 = Ok all_games ->
  Forall P all_games.
Proof.
  intros Hr. apply (fetch_season_items P max_pages remote years Hr).
Qed.

(** *** The loop over the seasons *)

Import IngestScript.

Lemma ingest_seasons_files (P : json -> Prop) max_pages
    (remote : Z -> Remote) seasons :
  (forall y n req, Forall P (items_of (remote y n req))) ->
  forall (Q : Z -> Prop) files,
    (forall y, Q y -> exists games, files !! y = Some games /\ Forall P games) ->
    (ingest_seasons max_pages remote seasons files).2 = None ->
    forall y, y ∈ seasons \/ Q y ->
      exists games,
        (ingest_seasons max_pages remote seasons files).1 !! y = Some games
        /\ Forall P games.
Proof.
  intros Hr. induction seasons as [|y0 rest IH]; intros Q files HQ;
    cbn [ingest_seasons].
  - intros _ y [Hy|Hy]; [by apply elem_of_nil in Hy|]. apply HQ, Hy.
  - destruct (fetch_season max_pages (remote y0) y0).2 as [games0|e] eqn:F;
      [|discriminate].
    intros Hn y Hy.
    apply (IH (fun y => y = y0 \/ Q y)); [|exact Hn|].
    + intros y' [->|Hq].
      * exists games0. rewrite lookup_insert_eq. split; [reflexivity|].
        eapply fetch_season_items; [apply Hr|exact F].
      * destruct (decide (y' = y0)) as [->|Hne].
        -- exists games0. rewrite lookup_insert_eq. split; [reflexivity|].
           eapply fetch_season_items; [apply Hr|exact F].
        -- rewrite lookup_insert_ne by congruence. apply HQ, Hq.
    + destruct Hy as [Hy|Hy]; [|auto].
      apply elem_of_cons in Hy as [->|Hy]; auto.
Qed.

Lemma ingest_seasons_other max_pages (remote : Z -> Remote) seasons files y :
  y ∉ seasons ->
  (ingest_seasons max_pages remote seasons files).1 !! y = files !! y.
Proof.
  revert files. induction seasons as [|y0 rest IH]; intros files Hy;
    cbn [ingest_seasons]; [reflexivity|].
  apply not_elem_of_cons in Hy as [Hne Hy].
  destruct (fetch_season max_pages (remote y0) y0).2; [|reflexivity].
  rewrite IH by exact Hy. apply lookup_insert_ne. congruence.
Qed.

(** When the loop over the seasons ends without an exception, every
    season of the list has its file; the files of the other seasons are
    never touched, whatever happens. *)
Theorem ingest_writes_every_season max_pages (remote : Z -> Remote)
    seasons files :
  ((ingest_seasons max_pages remote seasons files).2 = None ->
   forall y, y ∈ seasons ->
     is_Some ((ingest_seasons max_pages remote seasons files).1 !! y))
  /\ (forall y, y ∉ seasons ->
        (ingest_seasons max_pages remote seasons files).1 !! y = files !! y).
Proof.
  split.
  - intros Hn y Hy.
    destruct (ingest_seasons_files (fun _ => True) max_pages remote seasons)
      with (Q := fun _ : Z => False) (files := files) (y := y)
      as (games & L & _);
      [intros; apply Forall_forall; auto|intros ? []|exact Hn|auto|].
    rewrite L. eauto.
  - intros y Hy. apply ingest_seasons_other, Hy.
Qed.





(** [fetch_follows_cursor_to_the_end] on [three_pages]. *)
Lemma fetch_follows_cursor_to_the_end_witness :
  exists trace,
    fetch_season MAX_PAGES (serve (paged three_pages)) 2021
    = (trace, Ok (concat three_pages))
    /\ requests trace = 3%nat.
Proof.
  apply (fetch_follows_cursor_to_the_end MAX_PAGES 2021 [Sample.valid_game]
           [[Sample.same_team_game]; [Sample.string_id_game]]).
  - repeat constructor; discriminate.
  - cbn. unfold MAX_PAGES. lia.
Defined.

(** [fetch_stops_at_empty_page] on [three_pages]. *)
Lemma fetch_stops_at_empty_page_witness :
  exists trace,
    fetch_season MAX_PAGES (serve (paged_then_empty three_pages)) 2021
    = (trace, Ok (concat three_pages))
    /\ requests trace = 4%nat.
Proof.
  apply (fetch_stops_at_empty_page MAX_PAGES 2021 [Sample.valid_game]
           [[Sample.same_team_game]; [Sample.string_id_game]]).
  - repeat constructor; discriminate.
  - cbn. unfold MAX_PAGES. lia.
Defined.

(** [error_status_discards_pages] on [three_pages] followed by the
    status 500. *)
Lemma error_status_discards_pages_witness :
  exists trace,
    fetch_season MAX_PAGES (serve (paged_then_status three_pages 500)) 2021
    = (trace, Raise (HTTPError 500))
    /\ requests trace = 4%nat.
Proof.
  apply (error_status_discards_pages MAX_PAGES 2021 [Sample.valid_game]
           [[Sample.same_team_game]; [Sample.string_id_game]]).
  - repeat constructor; discriminate.
  - lia.
  - discriminate.
  - cbn. unfold MAX_PAGES. lia.
Defined.

(** [fetched_items_come_from_source] on [paged three_pages], whose items
    are all dictionaries. *)
Lemma fetched_items_come_from_source_witness :
  Forall is_object (concat three_pages).
Proof.
  apply (fetched_items_come_from_source is_object MAX_PAGES
           (serve (paged three_pages)) 2021).
  - intros n req. rewrite items_of_serve.
    destruct n as [|[|[|n]]]; cbn; repeat constructor.
  - vm_compute. reflexivity.
Defined.


End IngestMore.

(* ===================================================================== *)
(** * From ingestion to validation                                        *)
(* ===================================================================== *)

Module PipelineMore.
Import Run ValidateProps.

Lemma objects_fmap (l : list json) :
  Forall is_object l -> exists ds, l = JObj <$> ds.
Proof.
  induction 1 as [|v l Hv _ [ds ->]]; [exists []; reflexivity|].
  destruct v as [| | | | |d]; try contradiction.
  exists (d :: ds). reflexivity.
Qed.

(** When the source sends nothing but dictionaries and the ingestion
    ends without an exception, the validation script, run on the files
    the ingestion has written, ends without an exception too, as long
    as the Parquet writer accepts the table of each season: the five
    files it opens are there, and each record is either validated or
    logged. *)
Theorem ingest_then_validate `{Schema.Pydantic} `{Validate.Pandas}
    (remote : Z -> Ingest.Remote) (files : gmap Z (list json)) :
  (forall y n req, Forall is_object (IngestProps.items_of (remote y n req))) ->
  (IngestScript.ingest remote files).2 = None ->
  let fs := Sample.with_raw (IngestScript.ingest remote files).1 in
  tables_accepted
    (Validate.validate_files Validate.files fs Validate.counters).1.1 ->
  Validate.raised (Validate.main fs) = None.
Proof.
  intros Hr Hn fs. unfold Validate.main.
  destruct (ValidateMore.validate_files_objects Validate.files fs
              Validate.counters) as (fs1 & c1 & E & Ha1).
  - intros y Hy. unfold fs, Sample.with_raw. cbn [Validate.raw].
    destruct (IngestMore.ingest_seasons_files is_object Ingest.MAX_PAGES
                remote Ingest.SEASONS Hr (fun _ => False) files)
      with (y := y) as (games & L & Hg);
      [intros ? []|exact Hn|left; exact Hy|].
    destruct (objects_fmap games Hg) as [ds ->]. exists ds. exact L.
  - intros y lines L. discriminate L.
  - rewrite E. cbn [fst]. apply ValidateMore.clean_years_flatten, Ha1.
Qed.

(** [ingest_then_validate] on a source that serves the same three pages
    for every season. *)
Lemma ingest_then_validate_witness :
  Validate.raised
    (Validate.main
       (Sample.with_raw
          (IngestScript.ingest
             (fun _ => Api.serve (IngestProps.paged IngestProps.three_pages))
             ∅).1))
  = None.
Proof.
  apply (ingest_then_validate
           (fun _ => Api.serve (IngestProps.paged IngestProps.three_pages)) ∅).
  - intros y n req. rewrite IngestMore.items_of_serve.
    destruct n as [|[|[|n]]]; cbn; repeat constructor.
  - vm_compute. reflexivity.
  - unfold tables_accepted, Validate.validate_years.
    repeat (constructor; [vm_compute; first [reflexivity|exact I]|]).
    constructor.
Defined.

End PipelineMore.

(* ===================================================================== *)
(** * Properties of the indicators                                        *)
(* ===================================================================== *)

Module IndicatorsMore.
Import Indicators IndicatorsProps.

(** *** The order of the labels *)

Lemma compare_refl (k : string) : String.compare k k = Eq.
Proof.
  pose proof (String.compare_antisym k k) as Ha.
  destruct (String.compare k k); simpl in Ha; congruence.
Qed.

Lemma label_lt_irrefl (k : string) : ~ label_lt k k.
Proof. unfold label_lt. rewrite compare_refl. discriminate. Qed.

Lemma label_lt_gt (k k' : string) :
  String.compare k k' = Gt -> label_lt k' k.
Proof.
  unfold label_lt. rewrite (String.compare_antisym k k').
  destruct (String.compare k' k); simpl; congruence.
Qed.

Lemma label_lt_trans (a b c : string) :
  label_lt a b -> label_lt b c -> label_lt a c.
Proof.
  unfold label_lt. intros Hab Hbc.
  assert (Hle : String.le a c).
  { transitivity b; unfold String.le, String.leb; [rewrite Hab|rewrite Hbc];
      exact I. }
  unfold String.le, String.leb in Hle.
  destruct (String.compare a c) eqn:Hac; [|reflexivity|contradiction].
  apply String.compare_eq_iff in Hac as ->.
  rewrite (String.compare_antisym b c), Hab in Hbc. discriminate.
Qed.

Lemma eqb_decide (k k' : string) :
  String.eqb k k' = bool_decide (k = k').
Proof.
  destruct (String.eqb_spec k k'); symmetry;
    [apply bool_decide_eq_true_2|apply bool_decide_eq_false_2]; assumption.
Qed.

(** *** [loc] *)

Lemma loc_None {A} (s : Series A) (k : string) :
  loc s k = None <-> k ∉ s.*1.
Proof.
  induction s as [|[k' v] s IH]; cbn [loc fmap list_fmap fst].
  - split; [intros _ Hin; by apply elem_of_nil in Hin|reflexivity].
  - rewrite eqb_decide, not_elem_of_cons. case_bool_decide as Hk.
    + split; [discriminate|]. intros [Hne _]. contradiction.
    + rewrite IH. tauto.
Qed.

Lemma loc_lt_head {A} (s : Series A) (k : string) :
  StronglySorted label_lt s.*1 ->
  (forall k', k' ∈ s.*1 -> label_lt k k') ->
  loc s k = None.
Proof.
  intros _ Hlt. apply loc_None. intros Hin.
  apply (label_lt_irrefl k), Hlt, Hin.
Qed.

Lemma loc_cons {A} (k0 : string) (v : A) (s : Series A) (k : string) :
  loc ((k0, v) :: s) k = if decide (k = k0) then Some v else loc s k.
Proof.
  cbn [loc]. destruct (String.eqb_spec k k0), (decide (k = k0));
    try contradiction; reflexivity.
Qed.

Lemma loc_fmap_value {A B} (f : A -> B) (s : Series A) (k : string) :
  loc ((fun g => (g.1, f g.2)) <$> s) k = f <$> loc s k.
Proof.
  induction s as [|[k' v] s IH]; cbn [loc fmap list_fmap fst snd];
    [reflexivity|].
  destruct (String.eqb k k'); [reflexivity|exact IH].
Qed.

(** *** [groupby] *)

Lemma group_add_elem {A} (k : string) (v : A) (g : Series (list A)) x :
  x ∈ (group_add k v g).*1 <-> x = k \/ x ∈ g.*1.
Proof.
  induction g as [|[k0 vs] g IH]; cbn [group_add fmap list_fmap fst].
  - rewrite elem_of_cons. tauto.
  - destruct (String.compare k k0) eqn:C; cbn [fmap list_fmap fst].
    + apply String.compare_eq_iff in C as ->. rewrite elem_of_cons. tauto.
    + rewrite !elem_of_cons. tauto.
    + rewrite !elem_of_cons, IH. tauto.
Qed.

Lemma group_add_sorted {A} (k : string) (v : A) (g : Series (list A)) :
  StronglySorted label_lt g.*1 ->
  StronglySorted label_lt (group_add k v g).*1.
Proof.
  induction g as [|[k0 vs] g IH]; cbn [group_add fmap list_fmap fst];
    intros Hs.
  - repeat constructor.
  - apply StronglySorted_inv in Hs as [Hs Hall].
    destruct (String.compare k k0) eqn:C; cbn [fmap list_fmap fst].
    + constructor; assumption.
    + constructor; [constructor; assumption|].
      constructor; [exact C|].
      eapply Forall_impl; [exact Hall|]. intros x Hx.
      eapply label_lt_trans; [exact C|exact Hx].
    + constructor; [apply IH, Hs|].
      apply Forall_forall. intros x Hx.
      apply group_add_elem in Hx as [->|Hx];
        [apply label_lt_gt, C|].
      eapply Forall_forall in Hall; [exact Hall|exact Hx].
Qed.

Lemma group_add_loc {A} (k : string) (v : A) (g : Series (list A)) k' :
  StronglySorted label_lt g.*1 ->
  loc (group_add k v g) k'
  = if decide (k' = k) then Some (default [] (loc g k) ++ [v]) else loc g k'.
Proof.
  induction g as [|[k0 vs] g IH]; cbn [group_add]; intros Hs.
  - rewrite loc_cons. destruct (decide (k' = k)); reflexivity.
  - apply StronglySorted_inv in Hs as [Hs Hall].
    destruct (String.compare k k0) eqn:C.
    + apply String.compare_eq_iff in C as ->. rewrite !loc_cons.
      rewrite (decide_True (P := k0 = k0)) by reflexivity.
      destruct (decide (k' = k0)); reflexivity.
    + assert (Hk : loc ((k0, vs) :: g) k = None).
      { apply loc_None. cbn [fmap list_fmap fst].
        apply not_elem_of_cons. split.
        - intros ->. exact (label_lt_irrefl _ C).
        - intros Hin. eapply Forall_forall in Hall; [|exact Hin].
          apply (label_lt_irrefl k). eapply label_lt_trans; eassumption. }
      rewrite Hk. rewrite (loc_cons k).
      destruct (decide (k' = k)); reflexivity.
    + assert (Hne : k ≠ k0)
        by (intros ->; rewrite compare_refl in C; discriminate).
      rewrite !loc_cons, (IH Hs).
      rewrite (decide_False (P := k = k0)) by exact Hne.
      destruct (decide (k' = k0)) as [->|]; [|reflexivity].
      rewrite decide_False by congruence. reflexivity.
Qed.

Lemma column_of_cons {A} (key : Row -> string) (col : Row -> A) r df k :
  column_of key col (r :: df) k
  = if decide (key r = k) then col r :: column_of key col df k
    else column_of key col df k.
Proof.
  unfold column_of. rewrite filter_cons.
  destruct (decide (key r = k)); reflexivity.
Qed.

Lemma groupby_fold {A} (key : Row -> string) (col : Row -> A) df :
  forall g,
    StronglySorted label_lt g.*1 ->
    StronglySorted label_lt
      (fold_left (fun groups r => group_add (key r) (col r) groups) df g).*1
    /\ forall k,
         loc (fold_left (fun groups r => group_add (key r) (col r) groups)
                        df g) k
         = extend (loc g k) (column_of key col df k).
Proof.
  induction df as [|r df IH]; intros g Hs; cbn [fold_left].
  - split; [exact Hs|]. reflexivity.
  - destruct (IH (group_add (key r) (col r) g)) as [Hs' Hl];
      [apply group_add_sorted, Hs|].
    split; [exact Hs'|]. intros k.
    rewrite Hl, column_of_cons, (group_add_loc _ _ _ _ Hs).
    destruct (decide (k = key r)) as [->|Hne].
    + rewrite decide_True by reflexivity.
      destruct (column_of key col df (key r)); unfold extend;
        cbn [default from_option id]; rewrite <- ?app_assoc; reflexivity.
    + rewrite decide_False by congruence. reflexivity.
Qed.

Lemma groupby_spec {A} (key : Row -> string) (col : Row -> A)
    (df : list Row) :
  StronglySorted label_lt (groupby key col df).*1
  /\ forall k,
       loc (groupby key col df) k
       = match column_of key col df k with
         | [] => None
         | vs => Some vs
         end.
Proof.
  unfold groupby.
  destruct (groupby_fold key col df []) as [Hs Hl]; [constructor|].
  split; [exact Hs|]. intros k. rewrite Hl. cbn [loc].
  destruct (column_of key col df k); reflexivity.
Qed.

(** [groupby] makes one group per key that occurs in the table; the
    keys come in increasing order, each with the values of its rows in
    the order of the table.  A key that does not occur has no group. *)
Theorem groupby_groups {A} (key : Row -> string) (col : Row -> A)
    (df : list Row) :
  StronglySorted label_lt (groupby key col df).*1
  /\ forall k,
       loc (groupby key col df) k
       = match column_of key col df k with
         | [] => None
         | vs => Some vs
         end.
Proof. apply groupby_spec. Qed.

(** *** Sum of two series *)

Lemma key_add_elem (k : string) (keys : list string) x :
  x ∈ key_add k keys <-> x = k \/ x ∈ keys.
Proof.
  induction keys as [|k0 keys IH]; cbn [key_add].
  - rewrite elem_of_cons. tauto.
  - destruct (String.compare k k0) eqn:C.
    + apply String.compare_eq_iff in C as ->. rewrite elem_of_cons. tauto.
    + rewrite !elem_of_cons. tauto.
    + rewrite !elem_of_cons, IH. tauto.
Qed.

Lemma key_add_sorted (k : string) (keys : list string) :
  StronglySorted label_lt keys -> StronglySorted label_lt (key_add k keys).
Proof.
  induction keys as [|k0 keys IH]; cbn [key_add]; intros Hs.
  - repeat constructor.
  - apply StronglySorted_inv in Hs as [Hs Hall].
    destruct (String.compare k k0) eqn:C.
    + constructor; assumption.
    + constructor; [constructor; assumption|].
      constructor; [exact C|].
      eapply Forall_impl; [exact Hall|]. intros x Hx.
      eapply label_lt_trans; [exact C|exact Hx].
    + constructor; [apply IH, Hs|].
      apply Forall_forall. intros x Hx.
      apply key_add_elem in Hx as [->|Hx]; [apply label_lt_gt, C|].
      eapply Forall_forall in Hall; [exact Hall|exact Hx].
Qed.

Lemma index_elem (l : list string) x :
  x ∈ fold_right key_add [] l <-> x ∈ l.
Proof.
  induction l as [|k l IH]; cbn [fold_right]; [reflexivity|].
  rewrite key_add_elem, elem_of_cons, IH. reflexivity.
Qed.

Lemma index_sorted (l : list string) :
  StronglySorted label_lt (fold_right key_add [] l).
Proof.
  induction l as [|k l IH]; cbn [fold_right];
    [constructor|apply key_add_sorted, IH].
Qed.

Lemma sorted_NoDup (l : list string) : StronglySorted label_lt l -> NoDup l.
Proof.
  induction 1 as [|k l _ IH Hall]; constructor; [|exact IH].
  intros Hin. eapply Forall_forall in Hall; [|exact Hin].
  exact (label_lt_irrefl _ Hall).
Qed.

Lemma loc_index {A} (f : string -> A) (index : list string) (k : string) :
  loc ((fun k => (k, f k)) <$> index) k
  = if decide (k ∈ index) then Some (f k) else None.
Proof.
  induction index as [|k0 index IH]; cbn [fmap list_fmap].
  - rewrite decide_False by (intros Hin; by apply elem_of_nil in Hin).
    reflexivity.
  - rewrite loc_cons, IH. destruct (decide (k = k0)) as [->|Hne].
    + rewrite decide_True by constructor. reflexivity.
    + destruct (decide (k ∈ index)) as [Hin|Hin].
      * rewrite decide_True by (constructor; exact Hin). reflexivity.
      * rewrite decide_False; [reflexivity|].
        intros Hc. apply elem_of_cons in Hc as [?|?]; contradiction.
Qed.

Lemma add_series_index {A} (add : A -> A -> A) (a b : Series A) :
  (add_series add a b).*1 = fold_right key_add [] (a.*1 ++ b.*1).
Proof.
  unfold add_series. rewrite <- list_fmap_compose. apply list_fmap_id.
Qed.

Lemma add_series_loc {A} (add : A -> A -> A) (a b : Series A) (k : string) :
  loc (add_series add a b) k = aligned add (loc a k) (loc b k).
Proof.
  unfold add_series.
  rewrite (loc_index (fun k => match loc a k, loc b k with
                               | Some x, Some y => Some (add x y)
                               | _, _ => None
                               end)).
  match goal with
  | |- context [decide ?P] => destruct (decide P) as [Hin|Hin]
  end; rewrite index_elem, elem_of_app in Hin.
  - destruct (loc a k) eqn:La, (loc b k) eqn:Lb; try reflexivity.
    apply loc_None in La, Lb. tauto.
  - destruct (loc a k) eqn:La.
    + exfalso. apply Hin. left. apply dec_stable. intros Hn.
      apply loc_None in Hn. congruence.
    + destruct (loc b k) eqn:Lb; [|reflexivity].
      exfalso. apply Hin. right. apply dec_stable. intros Hn.
      apply loc_None in Hn. congruence.
Qed.

(** The sum of two series holds, for a label of both indexes, the sum
    of the two values; for a label of one index only, [NaN]; and no
    other label.  Its index is in increasing order. *)
Theorem add_series_aligns {A} (add : A -> A -> A) (a b : Series A) :
  StronglySorted label_lt (add_series add a b).*1
  /\ forall k, loc (add_series add a b) k = aligned add (loc a k) (loc b k).
Proof.
  split; [rewrite add_series_index; apply index_sorted|].
  apply add_series_loc.
Qed.

(** *** [sort_values] *)

Lemma sort_insert_perm {A} (le : A -> A -> bool) e (s : Series (option A)) :
  sort_insert le e s ≡ₚ e :: s.
Proof.
  induction s as [|e' s IH]; cbn [sort_insert]; [reflexivity|].
  destruct (value_le le e.2 e'.2 && negb (value_le le e'.2 e.2));
    [reflexivity|].
  rewrite IH. apply Permutation_swap.
Qed.

Lemma sort_fold_perm {A} (le : A -> A -> bool) (s acc : Series (option A)) :
  fold_left (fun acc e => sort_insert le e acc) s acc ≡ₚ acc ++ s.
Proof.
  revert acc. induction s as [|e s IH]; intros acc; cbn [fold_left].
  - rewrite app_nil_r. reflexivity.
  - rewrite IH, sort_insert_perm. cbn [app]. apply Permutation_middle.
Qed.

Section Sorted.
Context {A : Type} (le : A -> A -> bool).
Hypothesis le_total : forall x y, le x y = true \/ le y x = true.
Hypothesis le_trans :
  forall x y z, le x y = true -> le y z = true -> le x z = true.

Lemma value_le_total (x y : option A) :
  value_le le x y = true \/ value_le le y x = true.
Proof. destruct x, y; cbn; auto. Qed.

Lemma value_le_trans (x y z : option A) :
  value_le le x y = true -> value_le le y z = true -> value_le le x z = true.
Proof. destruct x, y, z; cbn; try congruence. apply le_trans. Qed.

Lemma sort_insert_sorted e (s : Series (option A)) :
  StronglySorted (before le) s -> StronglySorted (before le) (sort_insert le e s).
Proof.
  induction s as [|e' s IH]; cbn [sort_insert]; intros Hs.
  - repeat constructor.
  - apply StronglySorted_inv in Hs as [Hs Hall].
    destruct (value_le le e.2 e'.2) eqn:H1; cbn [andb].
    + destruct (value_le le e'.2 e.2) eqn:H2; cbn [negb].
      * constructor; [apply IH, Hs|].
        apply Forall_forall. intros x Hx.
        rewrite sort_insert_perm in Hx. apply elem_of_cons in Hx as [->|Hx].
        -- exact H2.
        -- eapply Forall_forall in Hall; [exact Hall|exact Hx].
      * constructor; [constructor; assumption|].
        constructor; [exact H1|].
        eapply Forall_impl; [exact Hall|]. intros x Hx.
        eapply value_le_trans; [exact H1|exact Hx].
    + constructor; [apply IH, Hs|].
      apply Forall_forall. intros x Hx.
      rewrite sort_insert_perm in Hx. apply elem_of_cons in Hx as [->|Hx].
      * destruct (value_le_total e.2 e'.2); [congruence|assumption].
      * eapply Forall_forall in Hall; [exact Hall|exact Hx].
Qed.

Lemma sort_fold_sorted (s acc : Series (option A)) :
  StronglySorted (before le) acc ->
  StronglySorted (before le)
    (fold_left (fun acc e => sort_insert le e acc) s acc).
Proof.
  revert acc. induction s as [|e s IH]; intros acc Hs; cbn [fold_left];
    [exact Hs|]. apply IH, sort_insert_sorted, Hs.
Qed.

Lemma sort_values_sorted (s : Series (option A)) :
  StronglySorted (before le) (sort_values le s).
Proof. apply sort_fold_sorted. constructor. Qed.

End Sorted.

Lemma sorted_take_drop {A} (R : relation A) (l : list A) (n : nat) x y :
  StronglySorted R l -> x ∈ take n l -> y ∈ drop n l -> R x y.
Proof.
  intros Hs. rewrite <- (take_drop n l) in Hs.
  apply StronglySorted_app_1_elem_of, Hs.
Qed.

Lemma sorted_lookup {A} (R : relation A) (l : list A) (i j : nat) x y :
  StronglySorted R l -> l !! i = Some x -> l !! j = Some y -> (i < j)%nat ->
  R x y.
Proof.
  intros Hs Hi Hj Hij. apply (sorted_take_drop R l j); [exact Hs| |].
  - apply list_elem_of_lookup. exists i. rewrite lookup_take_lt by exact Hij.
    exact Hi.
  - apply list_elem_of_lookup. exists 0%nat. rewrite lookup_drop, Nat.add_0_r.
    exact Hj.
Qed.

(** [sort_values] rearranges the lines of a series without adding or
    losing one, and puts them in order when the comparison is total and
    transitive: each line has a value that may come before the values
    of all the lines after it, and [NaN] lines come last. *)
Theorem sort_values_sorts {A} (le : A -> A -> bool) (s : Series (option A)) :
  (forall x y, le x y = true \/ le y x = true) ->
  (forall x y z, le x y = true -> le y z = true -> le x z = true) ->
  sort_values le s ≡ₚ s
  /\ StronglySorted (before le) (sort_values le s)
  /\ (forall i j k k' v,
        sort_values le s !! i = Some (k, None) ->
        sort_values le s !! j = Some (k', Some v) ->
        (j < i)%nat).
Proof.
  intros Ht Htr.
  pose proof (sort_values_sorted le Ht Htr s) as Hs.
  split; [apply (sort_fold_perm le s [])|]. split; [exact Hs|].
  intros i j k k' v Hi Hj.
  destruct (decide (j < i)%nat) as [|Hge]; [assumption|exfalso].
  assert (Hij : (i < j)%nat).
  { destruct (decide (i = j)) as [->|]; [congruence|lia]. }
  pose proof (sorted_lookup _ _ i j _ _ Hs Hi Hj Hij) as Hb.
  discriminate Hb.
Qed.

(** [sort_values_sorts] on a series of three integers sorted in
    decreasing order. *)
Lemma sort_values_sorts_witness :
  sort_values Z.geb [("a", Some 1); ("b", None); ("c", Some 3)]
  ≡ₚ [("a", Some 1); ("b", None); ("c", Some 3)]
  /\ StronglySorted (before Z.geb)
       (sort_values Z.geb [("a", Some 1); ("b", None); ("c", Some 3)])
  /\ (forall i j k k' v,
        sort_values Z.geb [("a", Some 1); ("b", None); ("c", Some 3)] !! i
        = Some (k, None) ->
        sort_values Z.geb [("a", Some 1); ("b", None); ("c", Some 3)] !! j
        = Some (k', Some v) ->
        (j < i)%nat).
Proof.
  apply sort_values_sorts.
  - intros x y. rewrite !Z.geb_le. lia.
  - intros x y z. rewrite !Z.geb_le. lia.
Defined.

(** *** The three tables, team by team *)

Lemma loc_Some_NoDup {A} (s : Series A) (k : string) (v : A) :
  NoDup s.*1 -> (loc s k = Some v <-> (k, v) ∈ s).
Proof.
  induction s as [|[k0 v0] s IH]; cbn [fmap list_fmap fst]; intros Hnd.
  - cbn [loc]. split; [discriminate|]. intros Hin. by apply elem_of_nil in Hin.
  - apply NoDup_cons in Hnd as [Hk0 Hnd]. rewrite loc_cons, elem_of_cons.
    destruct (decide (k = k0)) as [->|Hne].
    + split; [intros [= ->]; auto|]. intros [[= ->]|Hin]; [reflexivity|].
      exfalso. apply Hk0. apply (list_elem_of_fmap_2 fst) in Hin. exact Hin.
    + rewrite (IH Hnd). split; [auto|]. intros [[= ? ?]|Hin]; [congruence|auto].
Qed.

Lemma loc_perm {A} (s s' : Series A) (k : string) :
  NoDup s.*1 -> s ≡ₚ s' -> loc s' k = loc s k.
Proof.
  intros Hnd Hp.
  assert (Hnd' : NoDup s'.*1) by (rewrite <- Hp; exact Hnd).
  destruct (loc s' k) as [v'|] eqn:L'.
  - apply (loc_Some_NoDup _ _ _ Hnd') in L'. rewrite <- Hp in L'.
    apply (loc_Some_NoDup _ _ _ Hnd) in L'. congruence.
  - destruct (loc s k) as [v|] eqn:L; [|reflexivity].
    apply (loc_Some_NoDup _ _ _ Hnd) in L. rewrite Hp in L.
    apply (loc_Some_NoDup _ _ _ Hnd') in L. congruence.
Qed.

Lemma sorted_sum_loc {A} (le : A -> A -> bool) (add : A -> A -> A)
    (a b : Series A) (k : string) :
  loc (sort_values le (add_series add a b)) k
  = aligned add (loc a k) (loc b k).
Proof.
  rewrite (loc_perm (add_series add a b)).
  - apply add_series_loc.
  - rewrite add_series_index. apply sorted_NoDup, index_sorted.
  - symmetry. apply (sort_fold_perm le _ []).
Qed.

Lemma loc_sum_bool (key : Row -> string) (col : Row -> bool) df k :
  loc (sum_bool (groupby key col df)) k
  = agg count_true (column_of key col df k).
Proof.
  etrans; [exact (loc_fmap_value count_true _ k)|].
  rewrite (proj2 (groupby_spec key col df)).
  destruct (column_of key col df k); reflexivity.
Qed.

Lemma loc_mean (key : Row -> string) (col : Row -> Z) df k :
  loc (mean (groupby key col df)) k = agg mean_of (column_of key col df k).
Proof.
  etrans; [exact (loc_fmap_value mean_of _ k)|].
  rewrite (proj2 (groupby_spec key col df)).
  destruct (column_of key col df k); reflexivity.
Qed.

(** What the three tables hold for a team.  [wins]: its number of home
    games won plus its number of away games won, a game with equal
    scores being won by neither team.  [best_attacks]: its mean score at
    home plus its mean score away.  [best_defenses]: the mean score of
    its visitors plus the mean score of its hosts.  In each table a team
    that has played at home only, or away only, is listed with [NaN],
    and a team that has not played is not listed. *)
Theorem tables_by_team (df : list Row) (k : string) :
  loc (wins df) k
  = aligned Z.add
      (agg count_true (column_of home_team_full_name home_win df k))
      (agg count_true (column_of visitor_team_full_name visitor_win df k))
  /\ loc (best_attacks df) k
     = aligned Qplus
         (agg mean_of (column_of home_team_full_name home_team_score df k))
         (agg mean_of
              (column_of visitor_team_full_name visitor_team_score df k))
  /\ loc (best_defenses df) k
     = aligned Qplus
         (agg mean_of (column_of home_team_full_name visitor_team_score df k))
         (agg mean_of (column_of visitor_team_full_name home_team_score df k)).
Proof.
  unfold wins, best_attacks, best_defenses, conceded_home, conceded_away.
  rewrite !sorted_sum_loc, !loc_sum_bool, !loc_mean. auto.
Qed.

(** *** The report *)









End IndicatorsMore.
